(** * gobrake: remote configuration store, poller and notice filters

    A shallow embedding of [remote_config.go] and of the filters of
    [filter.go], with the properties of the remote-config poller and of the
    notice filter pipeline stated over it.

    Conventions of the embedding:
    - Go's [int64] and [time.Duration] are [Z], with the two's-complement
      wrap-around of the arithmetic written out ([Go.int64_wrap]);
    - a Go pointer that may be [nil] is an [option]; dereferencing [None]
      panics;
    - a panic is a result of its own ([Go.Panic]), never an error value;
    - Go's [error] values are identified with their [Error()] text;
    - [map[string]interface{}] is a [gmap string value] behind an [option]
      (the [nil] map). *)

From Stdlib Require Import ZArith NArith Ascii String.
From stdpp Require Import base option list gmap strings pretty.

Local Open Scope string_scope.
Local Open Scope Z_scope.

(** ** Go prelude *)

Module Go.

(** A computation that may panic. *)
Inductive res (A : Type) : Type :=
| Ok (a : A)
| Panic (msg : string).
Arguments Ok {A} a.
Arguments Panic {A} msg.

#[global] Instance res_ret : MRet res := @Ok.
#[global] Instance res_bind : MBind res := λ A B f r,
  match r with
  | Ok a => f a
  | Panic msg => Panic msg
  end.

Definition error : Type := string.

Definition nilDeref : string :=
  "runtime error: invalid memory address or nil pointer dereference".

(** [*p] for a pointer [p]. *)
Definition deref {A} (p : option A) : res A :=
  match p with
  | Some a => Ok a
  | None => Panic nilDeref
  end.

(** The value an [int64] holds after an arithmetic operation whose
    mathematical result is [z]. *)
Definition int64_wrap (z : Z) : Z := (z + 2 ^ 63) mod 2 ^ 64 - 2 ^ 63.

Definition int64_min : Z := - 2 ^ 63.
Definition int64_max : Z := 2 ^ 63 - 1.

(** [time.Duration] is an [int64] count of nanoseconds. *)
Definition Duration : Type := Z.
Definition Second : Duration := 1000000000.
Definition Minute : Duration := 60 * Second.

(** [a * b] on [time.Duration]. *)
Definition Duration_mul (a b : Duration) : Duration := int64_wrap (a * b).

(** [strings.HasPrefix(s, prefix)]. *)
Definition HasPrefix (s pre : string) : bool := String.prefix pre s.

(** [fmt.Sprintf] of the verb [%d] on an [int64]. *)
Definition format_d (z : Z) : string := pretty z.

(** A byte of a string, as a number. *)
Definition byte (c : ascii) : N := N_of_ascii c.

(** *** [fmt] on a format with no operand

    What [fmt.Sprintf(format)] returns when it is given no operand, after
    [doPrintf] of the Go library: text is copied up to each percent sign;
    after it come flags, an argument index in brackets, a width, a
    precision and the verb, and since there is no operand every verb but
    the percent sign itself is reported, as are a star for the width or the
    precision, an argument index and a missing verb. *)

(** One of the flag characters. *)
Definition is_flag (c : ascii) : bool :=
  existsb (Ascii.eqb c) ["#"; "0"; "+"; "-"; " "]%char.

Definition is_digit (c : ascii) : bool :=
  ((48 <=? byte c) && (byte c <=? 57))%N.

(** The loop over the flags. *)
Fixpoint skip_flags (s : string) : string :=
  match s with
  | String c s' => if is_flag c then skip_flags s' else s
  | EmptyString => s
  end.

(** [parsenum]: whether a number was read, and what follows it; a number
    beyond a million gives up and moves to the end of the format. *)
Fixpoint parsenum_from (num : N) (isnum : bool) (s : string) : bool * string :=
  match s with
  | String c s' =>
      if is_digit c
      then if (1000000 <? num)%N then (false, "")
           else parsenum_from (num * 10 + (byte c - 48)) true s'
      else (isnum, s)
  | EmptyString => (isnum, s)
  end.

Definition parsenum (s : string) : bool * string := parsenum_from 0 false s.

(** What stands before the first closing bracket, and what follows it. *)
Fixpoint until_bracket (s : string) : option (string * string) :=
  match s with
  | EmptyString => None
  | String c s' =>
      if Ascii.eqb c "]"
      then Some ("", s')
      else match until_bracket s' with
           | Some (inner, rest) => Some (String c inner, rest)
           | None => None
           end
  end.

Definition is_empty (s : string) : bool :=
  match s with EmptyString => true | _ => false end.

(** [argNumber], with [parseArgNumber]: whether an opening bracket was
    met (no index is good when there is no operand), whether the brackets
    hold a number, and what follows. *)
Definition argNumber (s : string) : bool * bool * string :=
  match s with
  | String c s' =>
      if Ascii.eqb c "["
      then
        if (String.length s <? 3)%nat then (true, false, s')
        else
          match until_bracket s' with
          | None => (true, false, s')
          | Some (inner, rest) =>
              let '(isnum, unread) := parsenum inner in
              (true, isnum && is_empty unread, rest)
          end
      else (false, false, s)
  | EmptyString => (false, false, s)
  end.

Definition in_range (lo hi : N) (c : ascii) : bool :=
  ((lo <=? byte c) && (byte c <=? hi))%N.

(** The encoding of U+FFFD, written for a verb that is no valid UTF-8. *)
Definition RuneError : string :=
  String "239" (String "191" (String "189" "")).

(** The verb that starts with the byte [c0], as [utf8.DecodeRuneInString]
    reads it and [writeRune] writes it back, and what follows it. *)
Definition decode_verb (c0 : ascii) (s1 : string) : string * string :=
  let b0 := byte c0 in
  let invalid := (RuneError, s1) in
  if (b0 <? 128)%N then (String c0 "", s1)
  else if ((b0 <? 194) || (244 <? b0))%N then invalid
  else
    let size := (if b0 <? 224 then 2 else if b0 <? 240 then 3 else 4)%N in
    let '(lo, hi) :=
      (if b0 =? 224 then (160, 191)
       else if b0 =? 237 then (128, 159)
       else if b0 =? 240 then (144, 191)
       else if b0 =? 244 then (128, 143)
       else (128, 191))%N in
    if (N.of_nat (String.length s1) + 1 <? size)%N then invalid
    else
      match s1 with
      | String c1 s2 =>
          if negb (in_range lo hi c1) then invalid
          else if (size =? 2)%N then (String c0 (String c1 ""), s2)
          else
            match s2 with
            | String c2 s3 =>
                if negb (in_range 128 191 c2) then invalid
                else if (size =? 3)%N
                then (String c0 (String c1 (String c2 "")), s3)
                else
                  match s3 with
                  | String c3 s4 =>
                      if negb (in_range 128 191 c3) then invalid
                      else (String c0 (String c1 (String c2 (String c3 ""))),
                            s4)
                  | EmptyString => invalid
                  end
            | EmptyString => invalid
            end
      | EmptyString => invalid
      end.

Definition starts_with (c : ascii) (s : string) : option string :=
  match s with
  | String c' s' => if Ascii.eqb c' c then Some s' else None
  | EmptyString => None
  end.

(** One verb, from the character after the percent sign: what is written
    for it and the format that is left. *)
Definition verb_noarg (s : string) : string * string :=
  let s := skip_flags s in
  let '(bad1, afterIndex, s) := argNumber s in
  let '(out_w, bad2, afterIndex, s) :=
    match starts_with "*" s with
    | Some s' => ("%!(BADWIDTH)", false, false, s')
    | None =>
        let '(widPresent, s') := parsenum s in
        ("", afterIndex && widPresent, afterIndex, s')
    end in
  let '(out_p, bad3, afterIndex, s) :=
    match starts_with "." s with
    | Some s' =>
        let '(bad, afterIndex', s'') := argNumber s' in
        match starts_with "*" s'' with
        | Some t => ("%!(BADPREC)", afterIndex || bad, false, t)
        | None =>
            let '(_, t) := parsenum s'' in
            ("", afterIndex || bad, afterIndex', t)
        end
    | None => ("", false, afterIndex, s)
    end in
  let '(bad4, s) :=
    if afterIndex then (false, s)
    else let '(bad, _, t) := argNumber s in (bad, t) in
  let bad := bad1 || bad2 || bad3 || bad4 in
  match s with
  | EmptyString => (out_w +:+ out_p +:+ "%!(NOVERB)", "")
  | String c0 s1 =>
      let '(verb, rest) := decode_verb c0 s1 in
      (out_w +:+ out_p +:+
         (if Ascii.eqb c0 "%" then "%"
          else if bad then "%!" +:+ verb +:+ "(BADINDEX)"
          else "%!" +:+ verb +:+ "(MISSING)"),
       rest)
  end.

(** [doPrintf] with no operand; each round reads at least one byte, so
    [fuel] need not exceed the length of the format. *)
Fixpoint doPrintf (fuel : nat) (s : string) : string :=
  match fuel, s with
  | S fuel', String c s' =>
      if Ascii.eqb c "%"
      then let '(out, rest) := verb_noarg s' in out +:+ doPrintf fuel' rest
      else String c (doPrintf fuel' s')
  | _, _ => EmptyString
  end.

(** [fmt.Sprintf(format)] *)
Definition Sprintf0 (format : string) : string :=
  doPrintf (String.length format) format.
Arguments Sprintf0 : simpl never.

(** Whether a text holds a percent sign. *)
Fixpoint has_percent (s : string) : bool :=
  match s with
  | String c s' => Ascii.eqb c "%" || has_percent s'
  | EmptyString => false
  end.

End Go.
Import Go.

(** ** Static options *)

Module NotifierOptions.

(** Modelled from the spec: the [NotifierOptions] struct is declared in a
    file outside the sources at hand; these are the static fallback options
    the store and the filters read ([rc.opt.ProjectId], [rc.opt.Host],
    [rc.opt.APMHost], the two disable flags, [opt.RemoteConfigBaseURL],
    [opt.Environment], [opt.Revision]). *)
Record t : Type := mk {
  ProjectId : Z;
  Host : string;
  APMHost : string;
  DisableErrorNotifications : bool;
  DisableAPM : bool;
  RemoteConfigBaseURL : string;
  Environment : string;
  Revision : string;
}.

End NotifierOptions.

(** ** remote_config.go *)

Module RemoteSettings.

Record t : Type := mk {
  Name : string;
  Enabled : bool;
  Endpoint : string;
}.

End RemoteSettings.

Module RemoteConfigJSON.

(** [RemoteSettings] is a slice of pointers: an element may be [nil]. *)
Record t : Type := mk {
  ProjectId : Z;
  UpdatedAt : Z;
  PollSec : Z;
  ConfigRoute : string;
  RemoteSettings : list (option RemoteSettings.t);
}.

(** [&RemoteConfigJSON{}] *)
Definition zero : t := mk 0 0 0 "" [].

End RemoteConfigJSON.

Module RemoteConfig.

Definition defaultInterval : Duration := 10 * Minute.
Definition apiVer : string := "2020-06-18".
Definition defaultBaseURL : string :=
  "https://v1-staging-notifier-configs.s3.amazonaws.com".
Definition apmSetting : string := "apm".
Definition errorSetting : string := "errors".

(** [fmt.Sprintf(configRoutePattern, host, ver, id)] with
    [configRoutePattern = "%s/%s/config/%d/config.json"]. *)
Definition configRoutePattern (host ver : string) (id : Z) : string :=
  host +:+ "/" +:+ ver +:+ "/config/" +:+ format_d id +:+ "/config.json".

(** A [time.Ticker]: its period, and whether it has been stopped. *)
Record Ticker : Type := mkTicker {
  period : Duration;
  stopped : bool;
}.

(** The [poller] struct: [ticker] points into the store of tickers,
    [closer_closed] tells whether the [closer] channel has been closed. *)
Record poller : Type := mkPoller {
  ticker : nat;
  closer_closed : bool;
}.

Record remoteConfig : Type := mkRemoteConfig {
  opt : NotifierOptions.t;
  rc_poller : option poller;
  baseURL : string;
  JSON : option RemoteConfigJSON.t;
}.

(** [init] *)
Definition init (rc : remoteConfig) : remoteConfig :=
  if decide (baseURL rc = "")
  then mkRemoteConfig (opt rc) (rc_poller rc) defaultBaseURL (JSON rc)
  else rc.

(** [newRemoteConfig] *)
Definition newRemoteConfig (o : NotifierOptions.t) : remoteConfig :=
  init (mkRemoteConfig o None (NotifierOptions.RemoteConfigBaseURL o)
          (Some RemoteConfigJSON.zero)).

(** [Interval] *)
Definition Interval (rc : remoteConfig) : res Duration :=
  j ← deref (JSON rc);
  if 0 <? RemoteConfigJSON.PollSec j
  then Ok (Duration_mul (RemoteConfigJSON.PollSec j) Second)
  else Ok defaultInterval.

(** [ConfigRoute] *)
Definition ConfigRoute (rc : remoteConfig) : res string :=
  j ← deref (JSON rc);
  if negb (bool_decide (RemoteConfigJSON.ConfigRoute j = ""))
  then Ok (configRoutePattern (RemoteConfigJSON.ConfigRoute j) apiVer
             (NotifierOptions.ProjectId (opt rc)))
  else Ok (configRoutePattern (baseURL rc) apiVer
             (NotifierOptions.ProjectId (opt rc))).

(** The loop of [EnabledErrorNotifications] and [EnabledAPM]: the first
    entry named [name] decides; [dflt] when the range ends. *)
Fixpoint enabled_loop (name : string) (dflt : bool)
    (l : list (option RemoteSettings.t)) : res bool :=
  match l with
  | [] => Ok dflt
  | p :: rest =>
      s ← deref p;
      if bool_decide (RemoteSettings.Name s = name)
      then Ok (RemoteSettings.Enabled s)
      else enabled_loop name dflt rest
  end.

(** [EnabledErrorNotifications] *)
Definition EnabledErrorNotifications (rc : remoteConfig) : res bool :=
  j ← deref (JSON rc);
  enabled_loop errorSetting
    (negb (NotifierOptions.DisableErrorNotifications (opt rc)))
    (RemoteConfigJSON.RemoteSettings j).

(** [EnabledAPM] *)
Definition EnabledAPM (rc : remoteConfig) : res bool :=
  j ← deref (JSON rc);
  enabled_loop apmSetting (negb (NotifierOptions.DisableAPM (opt rc)))
    (RemoteConfigJSON.RemoteSettings j).

(** The loop of [ErrorHost] and [APMHost]. Both branches of the [if] in the
    body return, so the range never reaches its second element. *)
Definition host_loop (name : string) (dflt : string)
    (l : list (option RemoteSettings.t)) : res string :=
  match l with
  | [] => Ok dflt
  | p :: _ =>
      s ← deref p;
      if bool_decide (RemoteSettings.Name s = name)
         && negb (bool_decide (RemoteSettings.Endpoint s = ""))
      then Ok (RemoteSettings.Endpoint s)
      else Ok dflt
  end.

(** [ErrorHost] *)
Definition ErrorHost (rc : remoteConfig) : res string :=
  j ← deref (JSON rc);
  host_loop errorSetting (NotifierOptions.Host (opt rc))
    (RemoteConfigJSON.RemoteSettings j).

(** [APMHost] *)
Definition APMHost (rc : remoteConfig) : res string :=
  j ← deref (JSON rc);
  host_loop apmSetting (NotifierOptions.APMHost (opt rc))
    (RemoteConfigJSON.RemoteSettings j).

(** What the specification asks of the endpoint lookup: scan the whole list
    for the first entry named [name]; its endpoint when that entry has one,
    the static default otherwise. *)
Fixpoint endpointHost_spec (name : string) (dflt : string)
    (l : list (option RemoteSettings.t)) : res string :=
  match l with
  | [] => Ok dflt
  | p :: rest =>
      s ← deref p;
      if bool_decide (RemoteSettings.Name s = name)
      then if negb (bool_decide (RemoteSettings.Endpoint s = ""))
           then Ok (RemoteSettings.Endpoint s)
           else Ok dflt
      else endpointHost_spec name dflt rest
  end.

(** *** The store, the tickers and the log as one state *)

(** [rc] is the [*remoteConfig] every method receives; [tickers] holds
    every [time.Ticker] created so far, a ticker's address being its index;
    [logged] holds, oldest first, the messages the logger printed: for
    [logger.Printf(format)] with no operand, what fmt makes of the format
    (the format itself when it holds no percent sign). *)
Record World : Type := mkWorld {
  rc : remoteConfig;
  tickers : list Ticker;
  logged : list string;
}.

Inductive outcome (A : Type) : Type :=
| Ret (a : A) (w : World)
| Panicked (msg : string) (w : World).
Arguments Ret {A} a w.
Arguments Panicked {A} msg w.

(** The message of the panic an outcome ended with, if it did. *)
Definition panicked {A} (o : outcome A) : option string :=
  match o with
  | Ret _ _ => None
  | Panicked msg _ => Some msg
  end.

(** Code that reads and writes the state and may panic. *)
Definition M (A : Type) : Type := World → outcome A.

#[global] Instance M_ret : MRet M := λ A a w, Ret a w.
#[global] Instance M_bind : MBind M := λ A B f m w,
  match m w with
  | Ret a w' => f a w'
  | Panicked msg w' => Panicked msg w'
  end.

Definition liftR {A} (r : res A) : M A := λ w,
  match r with
  | Ok a => Ret a w
  | Panic msg => Panicked msg w
  end.

Definition get_rc : M remoteConfig := λ w, Ret (rc w) w.

Definition set_JSON (j : option RemoteConfigJSON.t) : M unit := λ w,
  Ret tt (mkWorld
            (mkRemoteConfig (opt (rc w)) (rc_poller (rc w)) (baseURL (rc w)) j)
            (tickers w) (logged w)).

Definition set_poller (p : option poller) : M unit := λ w,
  Ret tt (mkWorld
            (mkRemoteConfig (opt (rc w)) p (baseURL (rc w)) (JSON (rc w)))
            (tickers w) (logged w)).

Definition log_line (w : World) (line : string) : World :=
  mkWorld (rc w) (tickers w) (logged w ++ [line]).

(** [logger.Printf(format)], with no operand. *)
Definition Printf (format : string) : M unit := λ w,
  Ret tt (log_line w (Sprintf0 format)).

(** [fmt.Sprintf("fetchConfig failed: %s", err)] *)
Definition fetchConfig_failed (err : error) : string :=
  "fetchConfig failed: " +:+ err.

Definition stop (t : Ticker) : Ticker := mkTicker (period t) true.

(** [t.Stop()] for the ticker at address [t]; stopping twice is allowed. *)
Definition Ticker_Stop (t : nat) : M unit := λ w,
  Ret tt (mkWorld (rc w) (alter stop t (tickers w)) (logged w)).

(** [time.NewTicker(d)]: panics unless [d] is positive. *)
Definition NewTicker (d : Duration) : M nat := λ w,
  if d <=? 0
  then Panicked "non-positive interval for NewTicker" w
  else Ret (length (tickers w))
           (mkWorld (rc w) (tickers w ++ [mkTicker d false]) (logged w)).

(** [newPoller]: a fresh ticker and a fresh, open [closer] channel. *)
Definition newPoller (interval : Duration) : M poller :=
  t ← NewTicker interval;
  mret (mkPoller t false).

(** [close(p.closer)] for the store's poller [p]. *)
Definition close_closer (p : poller) : M unit :=
  if closer_closed p
  then (λ w, Panicked "close of closed channel" w)
  else set_poller (Some (mkPoller (ticker p) true)).

(** The method [Stop] of [poller], on the receiver [rc.poller]. *)
Definition poller_Stop : M unit :=
  r ← get_rc;
  p ← liftR (deref (rc_poller r));
  Ticker_Stop (ticker p);;
  close_closer p.

(** [StopPolling] *)
Definition StopPolling : M unit := poller_Stop.

(** *** The network and the JSON decoder *)

(** What [ioutil.ReadAll(resp.Body)] gives for a response: the bytes read,
    and the read error if the body broke off. *)
Record Response : Type := mkResponse {
  StatusCode : Z;
  Body : string;
  ReadErr : option error;
}.

(** The result of [http.Get(url)]. *)
Inductive GetResult : Type :=
| GetOk (resp : Response)
| GetErr (err : error).

(** The same result under another status code. *)
Definition with_status (code : Z) (g : GetResult) : GetResult :=
  match g with
  | GetOk resp => GetOk (mkResponse code (Body resp) (ReadErr resp))
  | GetErr err => GetErr err
  end.

(** The state once the body of the result [g] has been read: a read
    error has been logged. *)
Definition after_read (g : GetResult) (w : World) : World :=
  match g with
  | GetOk resp =>
      match ReadErr resp with
      | Some err => log_line w (Sprintf0 (fetchConfig_failed err))
      | None => w
      end
  | GetErr _ => w
  end.

(** The result of [json.Unmarshal(body, &j)] for [var j *RemoteConfigJSON]:
    an error, or the pointer left in [j] ([nil] for the JSON value
    [null]). *)
Inductive UnmarshalResult : Type :=
| UnmarshalOk (j : option RemoteConfigJSON.t)
| UnmarshalErr (err : error).

(** A callback is any code run on the state. *)
Definition configCallback : Type := M unit.

(** One outcome of the [select] in [poll]: [rc.poller.closer] is ready, or
    the ticker fired while the network behaves as [http_Get]. *)
Inductive selected : Type :=
| SelCloser
| SelTick (http_Get : string → GetResult).

Inductive pollStatus : Type :=
| Returned
| Selecting.

Section Fetch.

(** [encoding/json] is outside the repository: the decoder is a
    parameter of the development. *)
Variable json_Unmarshal : string → UnmarshalResult.

(** [fetchConfig], with the network as [http_Get]. *)
Definition fetchConfig (http_Get : string → GetResult)
    : M (option RemoteConfigJSON.t * option error) :=
  r ← get_rc;
  url ← liftR (ConfigRoute r);
  match http_Get url with
  | GetErr err => r ← get_rc; mret (JSON r, Some err)
  | GetOk resp =>
      match ReadErr resp with
      | Some err => Printf (fetchConfig_failed err)
      | None => mret tt
      end;;
      if HasPrefix (Body resp) "<?xml "
      then r ← get_rc; mret (JSON r, Some (Body resp))
      else
        match json_Unmarshal (Body resp) with
        | UnmarshalErr err => r ← get_rc; mret (JSON r, Some err)
        | UnmarshalOk j => mret (j, None)
        end
  end.

(** What [fetchConfig] returns for a response that has arrived, [stored]
    being [rc.JSON]: the body alone decides. *)
Definition decoded (stored : option RemoteConfigJSON.t) (body : string)
    : option RemoteConfigJSON.t * option error :=
  if HasPrefix body "<?xml " then (stored, Some body)
  else
    match json_Unmarshal body with
    | UnmarshalErr err => (stored, Some err)
    | UnmarshalOk j => (j, None)
    end.

(** The three ways in which fetching [url] fails, with the error each
    gives: the transport fails, the body is an XML rejection, the body
    does not decode. *)
Inductive failing_fetch (http_Get : string → GetResult) (url : string)
    : error → Prop :=
| transport_error err :
    http_Get url = GetErr err →
    failing_fetch http_Get url err
| xml_rejection resp :
    http_Get url = GetOk resp →
    HasPrefix (Body resp) "<?xml " = true →
    failing_fetch http_Get url (Body resp)
| parse_error resp err :
    http_Get url = GetOk resp →
    HasPrefix (Body resp) "<?xml " = false →
    json_Unmarshal (Body resp) = UnmarshalErr err →
    failing_fetch http_Get url err.

(** [UpdateConfig] *)
Definition UpdateConfig (cb : configCallback)
    (http_Get : string → GetResult) : M (option error) :=
  fetched ← fetchConfig http_Get;
  match fetched.2 with
  | Some err => mret (Some err)
  | None =>
      r ← get_rc;
      p ← liftR (deref (rc_poller r));
      Ticker_Stop (ticker p);;
      set_JSON fetched.1;;
      r ← get_rc;
      d ← liftR (Interval r);
      t ← NewTicker d;
      set_poller (Some (mkPoller t (closer_closed p)));;
      cb;;
      mret None
  end.

(** [Poll]; the goroutine it starts is [poll] below. *)
Definition Poll (cb : configCallback) (http_Get : string → GetResult)
    : M unit :=
  r ← get_rc;
  d ← liftR (Interval r);
  p ← newPoller d;
  set_poller (Some p);;
  err ← UpdateConfig cb http_Get;
  match err with
  | Some e => Printf (fetchConfig_failed e)
  | None => mret tt
  end.

(** [poll], run along the outcomes [sched] of its [select]; [Selecting]
    when the outcomes are used up and the loop is blocked in [select]. *)
Fixpoint poll (cb : configCallback) (sched : list selected)
    : M pollStatus :=
  match sched with
  | [] => mret Selecting
  | sel :: rest =>
      r ← get_rc;
      _ ← liftR (deref (rc_poller r));
      match sel with
      | SelCloser => mret Returned
      | SelTick http_Get =>
          err ← UpdateConfig cb http_Get;
          match err with
          | Some e => Printf (fetchConfig_failed e);; poll cb rest
          | None => poll cb rest
          end
      end
  end.

End Fetch.

(** *** What stays true of the state *)

(** The state an outcome ends in, by return or by panic. *)
Definition final {A} (o : outcome A) : World :=
  match o with
  | Ret _ w => w
  | Panicked _ w => w
  end.

(** Every ticker was armed with a positive period. *)
Definition periods_positive (w : World) : Prop :=
  Forall (λ t, 0 < period t) (tickers w).

(** No ticker runs but the one the poller holds. *)
Definition no_stray_ticker (w : World) : Prop :=
  ∀ i t,
    tickers w !! i = Some t → stopped t = false →
    ticker <$> rc_poller (rc w) = Some i.

(** Whether the closer is among the outcomes of the [select]. *)
Definition closer_selected (sched : list selected) : bool :=
  existsb (λ sel, match sel with SelCloser => true | SelTick _ => false end)
    sched.

(** A run of the [select] in which every tick meets a failing fetch of
    [url]. *)
Definition failing_schedule (json_Unmarshal : string → UnmarshalResult)
    (url : string) (sched : list selected) : Prop :=
  Forall (λ sel,
            match sel with
            | SelCloser => True
            | SelTick http_Get =>
                ∃ e, failing_fetch json_Unmarshal http_Get url e
            end) sched.

End RemoteConfig.

(** ** filter.go *)

Module Filter.

(** A value held in an [interface{}]. *)
Inductive value : Type :=
| VNil
| VBool (b : bool)
| VInt (z : Z)
| VStr (s : string).

Record StackFrame : Type := mkStackFrame {
  File : string;
  Line : Z;
  Func : string;
}.

(** Modelled from the spec: the [Notice] struct is declared in a file
    outside the sources at hand; a notice carries its error records (here
    their backtraces) and the three key-value mappings the filters write,
    each a [map[string]interface{}] that may be the [nil] map. *)
Record Notice : Type := mkNotice {
  Errors : list (list StackFrame);
  Context : option (gmap string value);
  Env : option (gmap string value);
  Session : option (gmap string value);
}.

(** [m[k]] read through a possibly [nil] map. *)
Definition map_get (m : option (gmap string value)) (k : string)
    : option value :=
  g ← m; g !! k.

(** [m[k] = v]: panics on the [nil] map. *)
Definition map_assign (m : option (gmap string value)) (k : string)
    (v : value) : res (option (gmap string value)) :=
  match m with
  | Some g => Ok (Some (<[k:=v]> g))
  | None => Panic "assignment to entry in nil map"
  end.

Definition set_Context (notice : Notice)
    (c : option (gmap string value)) : Notice :=
  mkNotice (Errors notice) c (Env notice) (Session notice).

(** [newNotifierFilter], on the options [notifier.opt]. *)
Definition newNotifierFilter (opt : NotifierOptions.t) (notice : Notice)
    : res Notice :=
  notice ←
    (if negb (bool_decide (NotifierOptions.Environment opt = ""))
     then c ← map_assign (Context notice) "environment"
                (VStr (NotifierOptions.Environment opt));
          Ok (set_Context notice c)
     else Ok notice);
  notice ←
    (if negb (bool_decide (NotifierOptions.Revision opt = ""))
     then c ← map_assign (Context notice) "revision"
                (VStr (NotifierOptions.Revision opt));
          Ok (set_Context notice c)
     else Ok notice);
  Ok notice.

(** A compiled [*regexp.Regexp], known by its [MatchString]. *)
Record Regexp : Type := mkRegexp {
  MatchString : string → bool;
}.

(** The dynamic type of a blacklist key; [KOther] carries what [%T]
    prints for a key that is neither a string nor a regular expression. *)
Inductive blacklistKey : Type :=
| KString (s : string)
| KRegexp (re : Regexp)
| KOther (typ : string).

Definition filtered : value := VStr "[Filtered]".

(** [for k := range values { if matches(k) { values[k] = filtered } }] *)
Definition range_filter (matches : string → bool)
    (values : gmap string value) : gmap string value :=
  map_fold (λ k _ acc, if matches k then <[k:=filtered]> acc else acc)
    values values.

(** [filterByKey]; ranging over the [nil] map runs no iteration. *)
Definition filterByKey (values : option (gmap string value))
    (key : blacklistKey) : res (option (gmap string value)) :=
  match key with
  | KString s => Ok (range_filter (λ k, bool_decide (k = s)) <$> values)
  | KRegexp re => Ok (range_filter (MatchString re) <$> values)
  | KOther typ => Panic ("unsupported blacklist key type: " +:+ typ)
  end.

(** [NewBlacklistKeysFilter(keys...)] applied to a notice. *)
Fixpoint NewBlacklistKeysFilter (keys : list blacklistKey)
    (notice : Notice) : res Notice :=
  match keys with
  | [] => Ok notice
  | key :: rest =>
      env ← filterByKey (Env notice) key;
      ctx ← filterByKey (Context notice) key;
      ses ← filterByKey (Session notice) key;
      NewBlacklistKeysFilter rest (mkNotice (Errors notice) ctx env ses)
  end.

(** Whether a key of a mapping is matched by a blacklist key. *)
Definition key_matches (k : string) (key : blacklistKey) : bool :=
  match key with
  | KString s => bool_decide (k = s)
  | KRegexp re => MatchString re k
  | KOther _ => false
  end.

Definition supported (key : blacklistKey) : bool :=
  match key with
  | KOther _ => false
  | _ => true
  end.

(** The entry of a mapping at the key [k] after redaction by [keys], from
    the entry [entry] before it. *)
Definition redacted (keys : list blacklistKey) (k : string)
    (entry : option value) : option value :=
  (λ v, if existsb (key_matches k) keys then filtered else v) <$> entry.

(** [strings.HasSuffix] *)
Definition HasSuffix (s suf : string) : bool :=
  String.prefix (String.rev suf) (String.rev s).

(** [s[n:]], for [n] within the string. *)
Fixpoint string_drop (n : nat) (s : string) : string :=
  match n, s with
  | O, _ => s
  | S n', String _ s' => string_drop n' s'
  | S _, EmptyString => EmptyString
  end.

(** [strings.Replace(s, old, new, 1)]: the leftmost occurrence of [old]
    gives way to [new]; an empty [old] occurs at the start. *)
Fixpoint Replace_first (s old new : string) : string :=
  if String.prefix old s
  then new +:+ string_drop (String.length old) s
  else
    match s with
    | EmptyString => EmptyString
    | String c s' => String c (Replace_first s' old new)
    end.

(** [v, ok := x.(string)] for the entry [x] of a mapping, [None] being the
    nil interface of a missing key: the string, if [ok]. *)
Definition assert_string (x : option value) : option string :=
  match x with
  | Some (VStr s) => Some s
  | _ => None
  end.

(** [v, _ := x.(string)]: the empty string unless [x] holds a string. *)
Definition string_or_empty (x : option value) : string :=
  default "" (assert_string x).

Definition set_Errors (notice : Notice) (errs : list (list StackFrame))
    : Notice :=
  mkNotice errs (Context notice) (Env notice) (Session notice).

Section Gopath.

(** [filepath.SplitList] and [filepath.Join] depend on the platform and
    are outside the repository: they are parameters of the filter. *)
Variable SplitList : string → list string.
Variable Join : string → string → string.

(** The loop over [dirs] for one frame, on its [File]: the first root
    whose [src] directory starts the path is replaced, and the loop
    breaks. *)
Fixpoint gopath_file (dirs : list string) (file : string) : string :=
  match dirs with
  | [] => file
  | dir :: rest =>
      let dir := Join dir "src" in
      if Go.HasPrefix file dir
      then Replace_first file dir "/GOPATH"
      else gopath_file rest file
  end.

Definition gopath_frame (dirs : list string) (frame : StackFrame)
    : StackFrame :=
  mkStackFrame (gopath_file dirs (File frame)) (Line frame) (Func frame).

(** [gopathFilter] *)
Definition gopathFilter (notice : Notice) : Notice :=
  match assert_string (map_get (Context notice) "gopath") with
  | None => notice
  | Some s =>
      let dirs := SplitList s in
      set_Errors notice (map (map (gopath_frame dirs)) (Errors notice))
  end.

End Gopath.

Section Git.

(** Modelled from the spec: [gitLastCheckout] and [gitRevision] are
    declared in a file outside the sources at hand; they read the
    version-control metadata under a root directory and return the last
    checkout, respectively the revision hash, beside an error. *)
Variable gitLastCheckout : string → value * option error.
Variable gitRevision : string → string * option error.

(** [gitRevisionFilter] *)
Definition gitRevisionFilter (notice : Notice) : res Notice :=
  let rootDir := string_or_empty (map_get (Context notice) "rootDirectory") in
  let rev := string_or_empty (map_get (Context notice) "revision") in
  if bool_decide (rootDir = "") || negb (bool_decide (rev = ""))
  then Ok notice
  else
    notice ←
      (match gitLastCheckout rootDir with
       | (checkout, None) =>
           c ← map_assign (Context notice) "lastCheckout" checkout;
           Ok (set_Context notice c)
       | (_, Some _) => Ok notice
       end);
    notice ←
      (match gitRevision rootDir with
       | (rev, None) =>
           c ← map_assign (Context notice) "revision" (VStr rev);
           Ok (set_Context notice c)
       | (_, Some _) => Ok notice
       end);
    Ok notice.

End Git.

(** The keys of a mapping that some blacklist key matches. *)
Definition matches_any (keys : list blacklistKey) (k : string) : bool :=
  existsb (key_matches k) keys.

End Filter.

(** ** Concrete inputs *)

Module Sample.
Import RemoteConfig.

(** The double-quote character. *)
Definition dq : string := String "034"%char "".

Definition quoted (s : string) : string := dq +:+ s +:+ dq.

Definition with_PollSec (n : Z) : RemoteConfigJSON.t :=
  RemoteConfigJSON.mk 0 0 n "" [].

(** The object whose only member is [poll_sec], as JSON text. *)
Definition poll_sec_body (n : string) : string :=
  "{" +:+ quoted "poll_sec" +:+ ":" +:+ n +:+ "}".

(** [json.Unmarshal] into a [*RemoteConfigJSON] on a handful of literal
    bodies: the empty object, objects holding [poll_sec] alone, the JSON
    value [null] (which leaves the pointer [nil] and is no error), a
    truncated object and a plain-text body. Bodies outside the table are
    reported as not decodable; the general theorems do not depend on this
    table, only the closed instances below do. *)
Definition json_Unmarshal (body : string) : UnmarshalResult :=
  if bool_decide (body = "{}") then
    UnmarshalOk (Some RemoteConfigJSON.zero)
  else if bool_decide (body = poll_sec_body "1") then
    UnmarshalOk (Some (with_PollSec 1))
  else if bool_decide (body = poll_sec_body "10") then
    UnmarshalOk (Some (with_PollSec 10))
  else if bool_decide (body = poll_sec_body "9223372037") then
    UnmarshalOk (Some (with_PollSec 9223372037))
  else if bool_decide (body = "null") then
    UnmarshalOk None
  else if bool_decide (body = "{") then
    UnmarshalErr "unexpected end of JSON input"
  else if bool_decide (body = "not found") then
    UnmarshalErr "invalid character 'o' in literal null (expecting 'u')"
  else
    UnmarshalErr "invalid character looking for beginning of value".

(** The options of the repository's tests. *)
Definition options : NotifierOptions.t :=
  NotifierOptions.mk 1 "https://api.example.com" "https://apm.example.com"
    false false "" "" "".

Definition options_with_base (base : string) : NotifierOptions.t :=
  NotifierOptions.mk 1 "https://api.example.com" "https://apm.example.com"
    false false base "" "".

(** A store without poller that holds the snapshot [j]. *)
Definition store_with (j : RemoteConfigJSON.t) : remoteConfig :=
  mkRemoteConfig options None defaultBaseURL (Some j).

Definition with_settings (l : list (option RemoteSettings.t))
    : RemoteConfigJSON.t :=
  RemoteConfigJSON.mk 0 0 0 "" l.

(** An [apm] entry without endpoint, then an [errors] entry with one. *)
Definition apm_then_errors : list (option RemoteSettings.t) :=
  [Some (RemoteSettings.mk "apm" true "");
   Some (RemoteSettings.mk "errors" true "http://api.newexample.com")].

(** An [errors] entry without endpoint, then an [apm] entry with one. *)
Definition errors_then_apm : list (option RemoteSettings.t) :=
  [Some (RemoteSettings.mk "errors" true "");
   Some (RemoteSettings.mk "apm" true "https://apm.newexample.com")].

(** A server answering every request with [status] and [body]. *)
Definition server (status : Z) (body : string) : string → GetResult :=
  λ _, GetOk (mkResponse status body None).

(** A network on which every request fails. *)
Definition unreachable : string → GetResult :=
  λ _, GetErr "dial tcp: connection refused".

(** The state right after [newRemoteConfig]. *)
Definition fresh : World := mkWorld (newRemoteConfig options) [] [].

(** A state in which polling runs: one live ticker of ten minutes, an
    open [closer]. *)
Definition polling : World :=
  mkWorld
    (mkRemoteConfig options (Some (mkPoller 0 false)) defaultBaseURL
       (Some RemoteConfigJSON.zero))
    [mkTicker defaultInterval false] [].

(** [polling] once [StopPolling] has run. *)
Definition stopped_polling : World :=
  mkWorld
    (mkRemoteConfig options (Some (mkPoller 0 true)) defaultBaseURL
       (Some RemoteConfigJSON.zero))
    [mkTicker defaultInterval true] [].

(** [polling] with its ticker stopped and the snapshot [j] stored. *)
Definition halted (j : option RemoteConfigJSON.t) : World :=
  mkWorld
    (mkRemoteConfig options (Some (mkPoller 0 false)) defaultBaseURL j)
    [mkTicker defaultInterval true] [].

(** A regular expression for the keys that end in [_token]. *)
Definition token_re : Filter.Regexp :=
  Filter.mkRegexp (λ k, Filter.HasSuffix k "_token").

Definition secrets : gmap string Filter.value :=
  <["password" := Filter.VStr "x"]>
    (<["other" := Filter.VStr "y"]>
       (<["api_token" := Filter.VStr "t"]> ∅)).

(** A notice whose three mappings hold [secrets]. *)
Definition notice : Filter.Notice :=
  Filter.mkNotice [] (Some secrets) (Some secrets) (Some secrets).

Definition release_options : NotifierOptions.t :=
  NotifierOptions.mk 1 "https://api.example.com" "https://apm.example.com"
    false false "" "production" "v1.2.3".

(** [filepath.SplitList] on Unix: the pieces between colons, none for the
    empty string. *)
Fixpoint split_colon (cur : string) (s : string) : list string :=
  match s with
  | EmptyString => [String.rev cur]
  | String c s' =>
      if Ascii.eqb c ":"%char
      then String.rev cur :: split_colon "" s'
      else split_colon (String c cur) s'
  end.

Definition SplitList (s : string) : list string :=
  if bool_decide (s = "") then [] else split_colon "" s.

(** [filepath.Join] on Unix, for clean non-empty elements. *)
Definition Join (dir elem : string) : string := dir +:+ "/" +:+ elem.

(** A notice with one error of two frames, built under the second of two
    roots. *)
Definition traced : Filter.Notice :=
  Filter.mkNotice
    [[Filter.mkStackFrame "/home/ci/go/src/app/main.go" 10 "main";
      Filter.mkStackFrame "/usr/lib/go/src/runtime/proc.go" 250 "proc"]]
    (Some (<["gopath" := Filter.VStr "/opt/go:/home/ci/go"]> ∅))
    (Some ∅) (Some ∅).

(** Version-control metadata found under [/srv/app] only. *)
Definition gitLastCheckout (dir : string) : Filter.value * option error :=
  if bool_decide (dir = "/srv/app")
  then (Filter.VStr "2020-06-18T10:00:00Z", None)
  else (Filter.VNil, Some "open .git/logs/HEAD: no such file or directory").

Definition gitRevision (dir : string) : string * option error :=
  if bool_decide (dir = "/srv/app")
  then ("6c3d3f0", None)
  else ("", Some "open .git/HEAD: no such file or directory").

(** A notice that knows its root directory and no revision. *)
Definition rooted : Filter.Notice :=
  Filter.mkNotice []
    (Some (<["rootDirectory" := Filter.VStr "/srv/app"]> ∅)) (Some ∅) (Some ∅).

(** Settings with the [errors] entry in second place, disabled. *)
Definition apm_then_errors_off : list RemoteSettings.t :=
  [RemoteSettings.mk "apm" true "";
   RemoteSettings.mk "errors" false ""].

(** A rejection by the storage backend that quotes a key in which a slash
    is percent-escaped. *)
Definition xml_escaped_key : string :=
  "<?xml version='1.0'?><Error><Code>AccessDenied</Code><Key>config%2F1</Key></Error>".

(** The body of a rejection by the storage backend. *)
Definition xml_body : string :=
  "<?xml version='1.0'?><Error><Code>InternalError</Code></Error>".

End Sample.

(** * Properties *)

Import RemoteConfig.

(** ** Arithmetic of [int64] *)

Lemma int64_wrap_id z : (int64_min ≤ z ≤ int64_max) → int64_wrap z = z.
Proof.
  unfold int64_wrap, int64_min, int64_max. intros Hz.
  rewrite Z.mod_small; lia.
Qed.

Lemma Duration_mul_Second n :
  (0 ≤ n ≤ 9223372036) → Duration_mul n Second = n * Second.
Proof.
  intros Hn. unfold Duration_mul. apply int64_wrap_id.
  unfold int64_min, int64_max, Second. lia.
Qed.

(** ** Formats without operands *)

Lemma skip_flags_length s : (String.length (skip_flags s) ≤ String.length s)%nat.
Proof.
  induction s as [|c s IH]; simpl; [done|]. destruct (is_flag c); simpl; lia.
Qed.

Lemma parsenum_from_length num isnum s :
  (String.length (parsenum_from num isnum s).2 ≤ String.length s)%nat.
Proof.
  revert num isnum. induction s as [|c s IH]; intros num isnum; simpl; [done|].
  destruct (is_digit c); simpl; [|lia].
  destruct (1000000 <? num)%N; simpl; [lia|].
  specialize (IH (num * 10 + (byte c - 48))%N true). lia.
Qed.

Lemma until_bracket_length s inner rest :
  until_bracket s = Some (inner, rest) →
  (String.length rest ≤ String.length s)%nat.
Proof.
  revert inner rest. induction s as [|c s IH]; intros inner rest; simpl;
    [done|].
  destruct (Ascii.eqb c "]"); [intros [= _ <-]; lia|].
  destruct (until_bracket s) as [[inner' rest']|]; [|done].
  intros [= _ <-]. specialize (IH _ _ eq_refl). lia.
Qed.

Lemma argNumber_length s :
  (String.length (argNumber s).2 ≤ String.length s)%nat.
Proof.
  destruct s as [|c s]; [done|]. unfold argNumber.
  destruct (Ascii.eqb c "["); [|done].
  destruct (String.length (String c s) <? 3)%nat; simpl; [lia|].
  destruct (until_bracket s) as [[inner rest]|] eqn:Hb; simpl; [|lia].
  apply until_bracket_length in Hb. destruct (parsenum inner). simpl. lia.
Qed.

Lemma starts_with_length c s s' :
  starts_with c s = Some s' → (String.length s' ≤ String.length s)%nat.
Proof.
  destruct s as [|c' s]; simpl; [done|].
  destruct (Ascii.eqb c' c); [|done]. intros [= <-]. lia.
Qed.

Lemma decode_verb_length c0 s1 :
  (String.length (decode_verb c0 s1).2 ≤ String.length s1)%nat.
Proof.
  unfold decode_verb.
  repeat match goal with
         | |- context [if ?b then _ else _] => destruct b; simpl
         | |- context [match ?s with EmptyString => _ | String _ _ => _ end] =>
             destruct s; simpl
         | |- context [let '(_, _) := ?p in _] => destruct p; simpl
         end; lia.
Qed.

Lemma verb_noarg_length s :
  (String.length (verb_noarg s).2 ≤ String.length s)%nat.
Proof.
  unfold verb_noarg.
  pose proof (skip_flags_length s) as H0.
  pose proof (argNumber_length (skip_flags s)) as H1.
  destruct (argNumber (skip_flags s)) as [[bad1 after1] s1]. simpl in H1.
  assert (∃ out_w bad2 after2 s2,
            match starts_with "*" s1 with
            | Some s' => ("%!(BADWIDTH)", false, false, s')
            | None =>
                let '(widPresent, s') := parsenum s1 in
                ("", after1 && widPresent, after1, s')
            end = (out_w, bad2, after2, s2) ∧
            (String.length s2 ≤ String.length s1)%nat)
    as (out_w & bad2 & after2 & s2 & -> & H2).
  { destruct (starts_with "*" s1) as [s'|] eqn:Hs.
    - apply starts_with_length in Hs. by repeat eexists.
    - pose proof (parsenum_from_length 0 false s1) as Hp.
      unfold parsenum. destruct (parsenum_from 0 false s1). by repeat eexists. }
  assert (∃ out_p bad3 after3 s3,
            match starts_with "." s2 with
            | Some s' =>
                let '(bad, afterIndex', s'') := argNumber s' in
                match starts_with "*" s'' with
                | Some t => ("%!(BADPREC)", after2 || bad, false, t)
                | None =>
                    let '(_, t) := parsenum s'' in
                    ("", after2 || bad, afterIndex', t)
                end
            | None => ("", false, after2, s2)
            end = (out_p, bad3, after3, s3) ∧
            (String.length s3 ≤ String.length s2)%nat)
    as (out_p & bad3 & after3 & s3 & -> & H3).
  { destruct (starts_with "." s2) as [s'|] eqn:Hs; [|by repeat eexists].
    apply starts_with_length in Hs.
    pose proof (argNumber_length s') as Ha.
    destruct (argNumber s') as [[bad after'] s'']. simpl in Ha.
    destruct (starts_with "*" s'') as [t|] eqn:Ht.
    - apply starts_with_length in Ht. repeat eexists. lia.
    - pose proof (parsenum_from_length 0 false s'') as Hp.
      unfold parsenum. destruct (parsenum_from 0 false s'').
      repeat eexists. simpl in Hp. lia. }
  assert (∃ bad4 s4,
            (if after3 then (false, s3)
             else let '(bad, _, t) := argNumber s3 in (bad, t)) = (bad4, s4) ∧
            (String.length s4 ≤ String.length s3)%nat)
    as (bad4 & s4 & -> & H4).
  { destruct after3; [by repeat eexists|].
    pose proof (argNumber_length s3) as Ha.
    destruct (argNumber s3) as [[bad after'] t]. by repeat eexists. }
  destruct s4 as [|c0 s5]; simpl; [lia|].
  pose proof (decode_verb_length c0 s5) as H5.
  destruct (decode_verb c0 s5). simpl in *. lia.
Qed.

(** Fuel beyond the length of the format changes nothing. *)
Lemma doPrintf_fuel n : ∀ s fuel fuel',
  (String.length s ≤ n)%nat →
  (String.length s ≤ fuel)%nat → (String.length s ≤ fuel')%nat →
  doPrintf fuel s = doPrintf fuel' s.
Proof.
  induction n as [|n IH]; intros s fuel fuel' Hn Hf Hf'.
  - destruct s; [|simpl in Hn; lia]. by destruct fuel, fuel'.
  - destruct s as [|c s]; [by destruct fuel, fuel'|]. simpl in Hn, Hf, Hf'.
    destruct fuel as [|fuel]; [lia|]. destruct fuel' as [|fuel']; [lia|].
    simpl. destruct (Ascii.eqb c "%").
    + pose proof (verb_noarg_length s) as Hv.
      destruct (verb_noarg s) as [out rest]. simpl in Hv.
      f_equal. apply IH; lia.
    + f_equal. apply IH; lia.
Qed.

(** A format without percent sign is printed as it is. *)
Lemma Sprintf0_no_percent s : has_percent s = false → Sprintf0 s = s.
Proof.
  unfold Sprintf0. induction s as [|c s IH]; simpl; [done|].
  intros [Hc Hs]%orb_false_iff. rewrite Hc. f_equal. by apply IH.
Qed.

Lemma has_percent_app s t :
  has_percent (s +:+ t) = has_percent s || has_percent t.
Proof.
  induction s as [|c s IH]; simpl; [done|]. by rewrite IH, orb_assoc.
Qed.

Lemma Sprintf0_fetchConfig_failed e :
  has_percent e = false →
  Sprintf0 ("fetchConfig failed: " +:+ e) = "fetchConfig failed: " +:+ e.
Proof.
  intros He. apply Sprintf0_no_percent. by rewrite has_percent_app, He.
Qed.

(** ** The values derived from the snapshot *)

Section Derived.

Variable rc : remoteConfig.
Variable j : RemoteConfigJSON.t.
Hypothesis stored : JSON rc = Some j.

Lemma Interval_stored :
  Interval rc =
  Ok (if 0 <? RemoteConfigJSON.PollSec j
      then Duration_mul (RemoteConfigJSON.PollSec j) Second
      else defaultInterval).
Proof. unfold Interval. rewrite stored. simpl. by case_match. Qed.

(** C7, as amended: a snapshot whose poll_sec is a positive n of at most
    9223372036 gives an interval of n seconds (n times 10^9 nanoseconds,
    which fits an int64), and a snapshot whose poll_sec is zero or negative
    gives the default of 600 seconds. *)
Theorem Interval_seconds :
  ((0 < RemoteConfigJSON.PollSec j ≤ 9223372036) →
   Interval rc = Ok (RemoteConfigJSON.PollSec j * Second)) ∧
  (RemoteConfigJSON.PollSec j ≤ 0 → Interval rc = Ok (600 * Second)).
Proof.
  rewrite Interval_stored. split; intros Hn.
  - destruct (Z.ltb_spec 0 (RemoteConfigJSON.PollSec j)); [|lia].
    rewrite Duration_mul_Second; [done | lia].
  - destruct (Z.ltb_spec 0 (RemoteConfigJSON.PollSec j)); [lia|].
    reflexivity.
Qed.

(** C6, as amended: the route is the snapshot's override when that is
    non-empty and the store's base URL otherwise, taken as it is, followed
    by the API version, the project id in decimal and the file name; no
    trailing separator is trimmed from either. *)
Theorem ConfigRoute_pattern :
  ConfigRoute rc =
  Ok ((if decide (RemoteConfigJSON.ConfigRoute j = "")
       then baseURL rc
       else RemoteConfigJSON.ConfigRoute j)
      +:+ "/2020-06-18/config/"
      +:+ format_d (NotifierOptions.ProjectId (opt rc))
      +:+ "/config.json").
Proof.
  unfold ConfigRoute. rewrite stored. simpl.
  unfold configRoutePattern, apiVer.
  case_bool_decide; case_decide; done.
Qed.

End Derived.

Lemma Interval_seconds_witness :
  Interval (Sample.store_with (Sample.with_PollSec 123)) = Ok (123 * Second) ∧
  Interval (Sample.store_with (Sample.with_PollSec (-123))) = Ok (600 * Second).
Proof.
  split.
  - apply (Interval_seconds _ (Sample.with_PollSec 123)); [reflexivity|].
    simpl. lia.
  - apply (Interval_seconds _ (Sample.with_PollSec (-123))); [reflexivity|].
    simpl. lia.
Defined.

(** The claim C7 as stated fails for a positive poll_sec above 9223372036:
    the product with [time.Second] leaves the range of int64 and the
    interval comes out negative. *)
Lemma Interval_overflows :
  Interval (Sample.store_with (Sample.with_PollSec 9223372037))
    = Ok (-9223372036709551616) ∧
  Interval (Sample.store_with (Sample.with_PollSec 9223372037))
    ≠ Ok (9223372037 * Second).
Proof. split; [reflexivity | discriminate]. Qed.

Lemma ConfigRoute_pattern_witness :
  ConfigRoute (newRemoteConfig (Sample.options_with_base "http://example.com"))
  = Ok "http://example.com/2020-06-18/config/1/config.json".
Proof.
  exact (ConfigRoute_pattern
           (newRemoteConfig (Sample.options_with_base "http://example.com"))
           RemoteConfigJSON.zero eq_refl).
Defined.

(** The claim C6 as stated fails for a base host that ends in a slash: the
    slash stays, and the route holds two slashes after the host. *)
Lemma ConfigRoute_keeps_trailing_slash :
  ConfigRoute (newRemoteConfig (Sample.options_with_base "http://example.com/"))
    = Ok "http://example.com//2020-06-18/config/1/config.json" ∧
  ConfigRoute (newRemoteConfig (Sample.options_with_base "http://example.com/"))
    ≠ Ok "http://example.com/2020-06-18/config/1/config.json".
Proof. split; [reflexivity | discriminate]. Qed.

(** [newRemoteConfig] takes the base URL of the options, or the default URL
    when the options have none. *)
Lemma newRemoteConfig_baseURL o :
  baseURL (newRemoteConfig o) =
  if decide (NotifierOptions.RemoteConfigBaseURL o = "")
  then defaultBaseURL
  else NotifierOptions.RemoteConfigBaseURL o.
Proof. unfold newRemoteConfig, init. simpl. by case_decide. Qed.

(** ** Endpoint lookup *)

(** The lookup reads the first entry of the list and nothing after it. *)
Lemma host_loop_first name dflt p rest rest' :
  host_loop name dflt (p :: rest) = host_loop name dflt (p :: rest').
Proof. reflexivity. Qed.

(** On the empty list, and on a list whose first entry is the category's,
    the lookup is the full scan. *)
Lemma host_loop_scan_first name dflt s rest :
  RemoteSettings.Name s = name →
  host_loop name dflt [] = endpointHost_spec name dflt [] ∧
  host_loop name dflt (Some s :: rest)
  = endpointHost_spec name dflt (Some s :: rest).
Proof.
  intros Hs. split; [done|]. simpl.
  rewrite bool_decide_eq_true_2 by done. simpl. by case_bool_decide.
Qed.

(** A first entry of another category ends the lookup with the default. *)
Lemma host_loop_other_first name dflt s rest :
  RemoteSettings.Name s ≠ name →
  host_loop name dflt (Some s :: rest) = Ok dflt.
Proof. intros Hs. simpl. by rewrite bool_decide_eq_false_2. Qed.

(** C1, at an input on which the code departs from it: with an [apm] entry
    first and an [errors] entry carrying an endpoint second, [ErrorHost]
    returns the static host although the full scan finds the endpoint; and
    likewise [APMHost] with the two entries in the other order. *)
Theorem ErrorHost_stops_at_first_entry :
  ErrorHost (Sample.store_with (Sample.with_settings Sample.apm_then_errors))
    = Ok "https://api.example.com" ∧
  endpointHost_spec errorSetting "https://api.example.com"
    Sample.apm_then_errors = Ok "http://api.newexample.com" ∧
  APMHost (Sample.store_with (Sample.with_settings Sample.errors_then_apm))
    = Ok "https://apm.example.com" ∧
  endpointHost_spec apmSetting "https://apm.example.com"
    Sample.errors_then_apm = Ok "https://apm.newexample.com".
Proof. repeat split; reflexivity. Qed.

(** ** Fetching *)

Section Fetching.

Variable json_Unmarshal : string → UnmarshalResult.

Local Abbreviation fetchConfig := (fetchConfig json_Unmarshal).
Local Abbreviation UpdateConfig := (UpdateConfig json_Unmarshal).
Local Abbreviation Poll := (Poll json_Unmarshal).
Local Abbreviation poll := (poll json_Unmarshal).
Local Abbreviation failing_fetch := (failing_fetch json_Unmarshal).
Local Abbreviation decoded := (decoded json_Unmarshal).

Lemma fetchConfig_unfold http_Get w :
  fetchConfig http_Get w =
  match ConfigRoute (rc w) with
  | Panic msg => Panicked msg w
  | Ok url =>
      match http_Get url with
      | GetErr err => Ret (JSON (rc w), Some err) w
      | GetOk resp =>
          Ret (decoded (JSON (rc w)) (Body resp))
            (after_read (http_Get url) w)
      end
  end.
Proof.
  unfold RemoteConfig.fetchConfig, RemoteConfig.decoded, mbind, M_bind, get_rc, liftR.
  destruct (ConfigRoute (rc w)) as [url|msg]; [|done].
  destruct (http_Get url) as [resp|err]; [|done]. simpl.
  destruct (ReadErr resp) as [rerr|]; simpl;
    destruct (HasPrefix (Body resp) "<?xml "); simpl; try done;
    by destruct (json_Unmarshal (Body resp)).
Qed.

Lemma after_read_rc g w : rc (after_read g w) = rc w.
Proof. by destruct g as [[? ? []]|]. Qed.

Lemma after_read_tickers g w : tickers (after_read g w) = tickers w.
Proof. by destruct g as [[? ? []]|]. Qed.

Lemma after_read_with_status code g w :
  after_read (with_status code g) w = after_read g w.
Proof. by destruct g. Qed.


(** A failing fetch, seen from the result of [fetchConfig]. *)
Lemma failing_fetch_decoded http_Get url resp stored e :
  http_Get url = GetOk resp →
  failing_fetch http_Get url e →
  decoded stored (Body resp) = (stored, Some e).
Proof.
  intros Hget Hfail. unfold RemoteConfig.decoded.
  destruct Hfail as [err Herr|resp' Hget' Hxml|resp' err Hget' Hxml Hjson];
    [congruence| |]; assert (resp' = resp) as -> by congruence.
  - by rewrite Hxml.
  - by rewrite Hxml, Hjson.
Qed.

Lemma fetchConfig_failing http_Get w url e :
  ConfigRoute (rc w) = Ok url →
  failing_fetch http_Get url e →
  fetchConfig http_Get w
  = Ret (JSON (rc w), Some e) (after_read (http_Get url) w).
Proof.
  intros Hroute Hfail. rewrite fetchConfig_unfold, Hroute.
  destruct (http_Get url) as [resp|err] eqn:Hget.
  - by rewrite (failing_fetch_decoded http_Get url resp _ e).
  - simpl. inversion Hfail; congruence.
Qed.



(** [fetchConfig] never writes the store or the tickers, whatever it
    returns. *)
Lemma fetchConfig_reads_only http_Get w :
  match fetchConfig http_Get w with
  | Ret _ w' | Panicked _ w' => rc w' = rc w ∧ tickers w' = tickers w
  end.
Proof.
  rewrite fetchConfig_unfold.
  destruct (ConfigRoute (rc w)); [|done].
  destruct (http_Get _) eqn:Hget; [|done].
  by rewrite <- Hget, after_read_rc, after_read_tickers.
Qed.

(** C2, as amended: the status code of the response is never read. Whatever
    the status, a body that starts with the XML prefix gives an error whose
    message is the body, any other body is handed to the JSON decoder, whose
    error is returned if it has one and whose snapshot is returned without
    error otherwise; and the same response under any other status code gives
    the same result. *)
Theorem fetchConfig_decided_by_body http_Get w url resp :
  ConfigRoute (rc w) = Ok url →
  http_Get url = GetOk resp →
  fetchConfig http_Get w
  = Ret (decoded (JSON (rc w)) (Body resp)) (after_read (GetOk resp) w) ∧
  ∀ code,
    fetchConfig (λ u, with_status code (http_Get u)) w
    = fetchConfig http_Get w.
Proof.
  intros Hroute Hget. split.
  - by rewrite fetchConfig_unfold, Hroute, Hget.
  - intros code. rewrite !fetchConfig_unfold, Hroute, Hget. simpl.
    by destruct (ReadErr resp).
Qed.

(** ** Fetch and apply *)

Lemma UpdateConfig_error cb http_Get w r e w' :
  fetchConfig http_Get w = Ret (r, Some e) w' →
  UpdateConfig cb http_Get w = Ret (Some e) w'.
Proof.
  intros Hfetch. unfold RemoteConfig.UpdateConfig, mbind, M_bind.
  by rewrite Hfetch.
Qed.

(** X28: when the fetch fails (the transport fails, the body is an XML
    rejection, or the body does not decode), [UpdateConfig] returns the error
    whatever the callback is, so without running it, in a state whose store
    and tickers are those it started from; and the polling loop, on a tick
    with such a fetch, logs what fmt makes of the format made of the text
    fetchConfig failed, a colon, a blank and the error, and goes on
    selecting with the same store and tickers. The line logged is that text
    itself when the error holds no percent sign. *)
Theorem UpdateConfig_failure_keeps_state http_Get w url e :
  ConfigRoute (rc w) = Ok url →
  failing_fetch http_Get url e →
  (∀ cb, UpdateConfig cb http_Get w
         = Ret (Some e) (after_read (http_Get url) w)) ∧
  rc (after_read (http_Get url) w) = rc w ∧
  tickers (after_read (http_Get url) w) = tickers w ∧
  (is_Some (rc_poller (rc w)) →
   ∀ cb rest,
     poll cb (SelTick http_Get :: rest) w
     = poll cb rest
         (log_line (after_read (http_Get url) w)
            (Sprintf0 ("fetchConfig failed: " +:+ e)))) ∧
  (has_percent e = false →
   Sprintf0 ("fetchConfig failed: " +:+ e) = "fetchConfig failed: " +:+ e).
Proof.
  intros Hroute Hfail.
  pose proof (fetchConfig_failing _ _ _ _ Hroute Hfail) as Hfetch.
  split_and!.
  - intros cb. by eapply UpdateConfig_error.
  - apply after_read_rc.
  - apply after_read_tickers.
  - intros [p Hp] cb rest. simpl.
    unfold mbind at 1 2, M_bind, get_rc, liftR. rewrite Hp. simpl.
    unfold mbind at 1, M_bind.
    by rewrite (UpdateConfig_error cb _ _ _ _ _ Hfetch).
  - apply Sprintf0_fetchConfig_failed.
Qed.

(** The state [UpdateConfig] hands to the callback after fetching the
    snapshot [j]: the old ticker stopped, the snapshot stored, and a new
    ticker of period [d] installed in the poller [p]. *)
Lemma UpdateConfig_success cb http_Get w url resp j p d :
  ConfigRoute (rc w) = Ok url →
  http_Get url = GetOk resp →
  decoded (JSON (rc w)) (Body resp) = (Some j, None) →
  rc_poller (rc w) = Some p →
  Interval (mkRemoteConfig (opt (rc w)) (Some p) (baseURL (rc w)) (Some j))
    = Ok d →
  0 < d →
  UpdateConfig cb http_Get w
  = (cb;; mret None)
      (mkWorld
         (mkRemoteConfig (opt (rc w))
            (Some (mkPoller (length (tickers w)) (closer_closed p)))
            (baseURL (rc w)) (Some j))
         (alter stop (ticker p) (tickers w) ++ [mkTicker d false])
         (logged (after_read (GetOk resp) w))).
Proof.
  intros Hroute Hget Hdec Hp Hint Hd.
  unfold RemoteConfig.UpdateConfig. unfold mbind at 1, M_bind.
  rewrite fetchConfig_unfold, Hroute, Hget, Hdec.
  destruct w as [[o p' b j'] tk lg]. simpl in Hp, Hint. subst p'.
  unfold mbind, M_bind, get_rc, liftR, Ticker_Stop, set_JSON, set_poller.
  unfold after_read. destruct (ReadErr resp); cbn -[Interval]; rewrite Hint; unfold NewTicker;
    (destruct (Z.leb_spec d 0); [lia|]); cbn; by rewrite length_alter.
Qed.

End Fetching.

(** ** Stopping *)

(** C3, as amended: on a poller that is installed and whose closer is still
    open, [StopPolling] stops the ticker and closes the closer without
    panicking and leaves the snapshot alone; it is no no-op afterwards: a
    second call panics on closing the closed channel, and a call with no
    poller installed panics on the nil poller. *)
Theorem StopPolling_stops_once w :
  (∀ p, rc_poller (rc w) = Some p → closer_closed p = false →
     ∃ w1, StopPolling w = Ret tt w1 ∧
           rc_poller (rc w1) = Some (mkPoller (ticker p) true) ∧
           tickers w1 = alter stop (ticker p) (tickers w) ∧
           JSON (rc w1) = JSON (rc w) ∧
           panicked (StopPolling w1) = Some "close of closed channel") ∧
  (∀ p, rc_poller (rc w) = Some p → closer_closed p = true →
     panicked (StopPolling w) = Some "close of closed channel") ∧
  (rc_poller (rc w) = None → StopPolling w = Panicked nilDeref w).
Proof.
  unfold StopPolling, poller_Stop, mbind, M_bind, get_rc, liftR.
  split_and!.
  - intros p Hp Hopen. rewrite Hp. simpl.
    unfold close_closer. rewrite Hopen. eexists. split; [reflexivity|].
    by split_and!.
  - intros p Hp Hclosed. rewrite Hp. simpl.
    unfold close_closer. by rewrite Hclosed.
  - intros Hp. by rewrite Hp.
Qed.

Lemma StopPolling_stops_once_witness :
  ∃ w1, StopPolling Sample.polling = Ret tt w1 ∧
        rc_poller (rc w1) = Some (mkPoller 0 true) ∧
        tickers w1 = [mkTicker defaultInterval true] ∧
        JSON (rc w1) = Some RemoteConfigJSON.zero ∧
        panicked (StopPolling w1) = Some "close of closed channel".
Proof.
  exact (proj1 (StopPolling_stops_once Sample.polling)
           (mkPoller 0 false) eq_refl eq_refl).
Defined.

(** The claim C3 as stated fails: with no poller installed the call panics,
    and the second of two calls on a running poller panics. *)
Lemma StopPolling_panics_past_first_stop :
  StopPolling Sample.fresh
    = Panicked "runtime error: invalid memory address or nil pointer dereference"
        Sample.fresh ∧
  StopPolling Sample.polling = Ret tt Sample.stopped_polling ∧
  StopPolling Sample.stopped_polling
    = Panicked "close of closed channel" Sample.stopped_polling.
Proof. repeat split; reflexivity. Qed.

(** ** Instances of the fetch *)


Lemma fetchConfig_decided_by_body_witness :
  fetchConfig Sample.json_Unmarshal (Sample.server 404 "not found")
    Sample.polling
  = Ret (decoded Sample.json_Unmarshal (Some RemoteConfigJSON.zero) "not found")
      Sample.polling ∧
  ∀ code,
    fetchConfig Sample.json_Unmarshal
      (λ u, with_status code (Sample.server 404 "not found" u)) Sample.polling
    = fetchConfig Sample.json_Unmarshal (Sample.server 404 "not found")
        Sample.polling.
Proof.
  exact (fetchConfig_decided_by_body Sample.json_Unmarshal
           (Sample.server 404 "not found") Sample.polling
           "https://v1-staging-notifier-configs.s3.amazonaws.com/2020-06-18/config/1/config.json"
           (mkResponse 404 "not found" None) eq_refl eq_refl).
Defined.

(** The claim C2 as stated fails: a status 500 with an XML body gives the
    body as the error, not an unhandled-status message; a status 410 with an
    empty JSON object gives no error at all; and a status 404 with a plain
    text body gives the decoder's error, not the body. *)
Lemma fetchConfig_never_reads_status :
  fetchConfig Sample.json_Unmarshal (Sample.server 500 Sample.xml_body)
    Sample.polling
    = Ret (Some RemoteConfigJSON.zero, Some Sample.xml_body) Sample.polling ∧
  Sample.xml_body ≠ "unhandled status 500: " +:+ Sample.xml_body ∧
  fetchConfig Sample.json_Unmarshal (Sample.server 410 "{}") Sample.polling
    = Ret (Some RemoteConfigJSON.zero, None) Sample.polling ∧
  fetchConfig Sample.json_Unmarshal (Sample.server 404 "not found")
    Sample.polling
    = Ret (Some RemoteConfigJSON.zero,
           Some "invalid character 'o' in literal null (expecting 'u')")
        Sample.polling.
Proof. repeat split; try reflexivity. discriminate. Qed.

Lemma UpdateConfig_failure_keeps_state_witness :
  (∀ cb, UpdateConfig Sample.json_Unmarshal cb (Sample.server 200 "{")
           Sample.polling
         = Ret (Some "unexpected end of JSON input") Sample.polling) ∧
  (∀ cb rest,
     poll Sample.json_Unmarshal cb
       (SelTick (Sample.server 200 "{") :: rest) Sample.polling
     = poll Sample.json_Unmarshal cb rest
         (log_line Sample.polling
            "fetchConfig failed: unexpected end of JSON input")).
Proof.
  pose proof (UpdateConfig_failure_keeps_state Sample.json_Unmarshal
                (Sample.server 200 "{") Sample.polling
                "https://v1-staging-notifier-configs.s3.amazonaws.com/2020-06-18/config/1/config.json"
                "unexpected end of JSON input" eq_refl
                (parse_error _ _ _ (mkResponse 200 "{" None) _
                   eq_refl eq_refl eq_refl))
    as (Hupdate & _ & _ & Hpoll & Hline).
  split; [exact Hupdate|].
  intros cb rest.
  rewrite (Hpoll (mk_is_Some _ _ eq_refl) cb rest), (Hline eq_refl).
  reflexivity.
Defined.

(** [Poll] on a network that cannot be reached: the poller is installed
    with the default interval, the failure is logged, the snapshot stays. *)
Example Poll_unreachable cb :
  Poll Sample.json_Unmarshal cb Sample.unreachable Sample.fresh
  = Ret tt
      (log_line Sample.polling
         "fetchConfig failed: dial tcp: connection refused").
Proof. reflexivity. Qed.

(** The loop goes through two failing ticks and returns once the closer is
    ready; what the schedule holds after that is never run. *)
Example poll_until_closer cb :
  poll Sample.json_Unmarshal cb
    [SelTick (Sample.server 200 "{"); SelTick Sample.unreachable; SelCloser;
     SelTick (Sample.server 200 "{}")]
    Sample.polling
  = Ret Returned
      (log_line
         (log_line Sample.polling
            "fetchConfig failed: unexpected end of JSON input")
         "fetchConfig failed: dial tcp: connection refused").
Proof. reflexivity. Qed.

(** C4, at an input on which the code departs from it. The message is
    handed to [logger.Printf] as its format: when the error holds a percent
    sign, as the XML rejection here that quotes a key with an escaped slash,
    fmt takes the two characters after the sign for a width and a verb
    without operand, and the line logged is not the text fetchConfig failed,
    a colon, a blank and the error. The rest of the claim holds here too:
    the error is returned, the store and the ticker are as they were, the
    callback is not run and the loop goes on selecting. *)
Theorem poll_logs_error_as_format cb :
  UpdateConfig Sample.json_Unmarshal cb
    (Sample.server 403 Sample.xml_escaped_key) Sample.polling
    = Ret (Some Sample.xml_escaped_key) Sample.polling ∧
  poll Sample.json_Unmarshal cb
    [SelTick (Sample.server 403 Sample.xml_escaped_key)] Sample.polling
    = Ret Selecting
        (mkWorld (rc Sample.polling) (tickers Sample.polling)
           ["fetchConfig failed: <?xml version='1.0'?><Error><Code>AccessDenied</Code><Key>config%!F(MISSING)1</Key></Error>"]) ∧
  "fetchConfig failed: <?xml version='1.0'?><Error><Code>AccessDenied</Code><Key>config%!F(MISSING)1</Key></Error>"
    ≠ "fetchConfig failed: " +:+ Sample.xml_escaped_key.
Proof. split_and!; [reflexivity | reflexivity | discriminate]. Qed.

(** C5, at inputs on which the code departs from it. A response 200 whose
    body is the JSON value null is a fetch without error that leaves the
    decoded pointer nil: [UpdateConfig] stops the ticker, stores the nil
    snapshot and panics in [Interval]. A response 200 whose poll_sec is
    9223372037 gives a negative interval: [UpdateConfig] stops the ticker,
    stores the snapshot and panics in [time.NewTicker]. In both no ticker is
    armed and the callback, whatever it is, is not run. *)
Theorem UpdateConfig_panics_after_fetch cb :
  fetchConfig Sample.json_Unmarshal (Sample.server 200 "null") Sample.polling
    = Ret (None, None) Sample.polling ∧
  UpdateConfig Sample.json_Unmarshal cb (Sample.server 200 "null")
    Sample.polling
    = Panicked "runtime error: invalid memory address or nil pointer dereference"
        (Sample.halted None) ∧
  UpdateConfig Sample.json_Unmarshal cb
    (Sample.server 200 (Sample.poll_sec_body "9223372037")) Sample.polling
    = Panicked "non-positive interval for NewTicker"
        (Sample.halted (Some (Sample.with_PollSec 9223372037))).
Proof. repeat split; reflexivity. Qed.

(** On a response 200 that carries poll_sec 1, with a poller installed, the
    fetch is applied: the ten-minute ticker is stopped, the snapshot is
    replaced, a ticker of one second is armed and the callback runs on that
    state. *)
Example UpdateConfig_poll_sec_1 cb :
  UpdateConfig Sample.json_Unmarshal cb
    (Sample.server 200 (Sample.poll_sec_body "1")) Sample.polling
  = (cb;; mret None)
      (mkWorld
         (mkRemoteConfig Sample.options (Some (mkPoller 1 false))
            defaultBaseURL (Some (Sample.with_PollSec 1)))
         [mkTicker defaultInterval true; mkTicker Second false] []).
Proof.
  exact (UpdateConfig_success Sample.json_Unmarshal cb
           (Sample.server 200 (Sample.poll_sec_body "1")) Sample.polling
           _ (mkResponse 200 (Sample.poll_sec_body "1") None)
           (Sample.with_PollSec 1) (mkPoller 0 false) Second
           eq_refl eq_refl eq_refl eq_refl eq_refl eq_refl).
Qed.

(** ** Filters *)

Import Filter.

Section Redaction.

Variable matches : string → bool.

(** The range loop of [filterByKey], entry by entry. *)
Lemma range_filter_lookup (values : gmap string value) k :
  range_filter matches values !! k
  = (λ v, if matches k then filtered else v) <$> values !! k.
Proof.
  unfold range_filter.
  assert (∀ base : gmap string value,
            map_fold (λ k _ acc, if matches k then <[k:=filtered]> acc else acc)
              base values !! k
            = match values !! k with
              | Some _ => if matches k then Some filtered else base !! k
              | None => base !! k
              end) as Hfold.
  { intros base.
    apply (map_fold_weak_ind
             (λ acc (m : gmap string value),
                acc !! k = match m !! k with
                           | Some _ =>
                               if matches k then Some filtered else base !! k
                           | None => base !! k
                           end)).
    - by rewrite lookup_empty.
    - intros i x m acc Hi IH. destruct (decide (i = k)) as [->|Hne].
      + rewrite lookup_insert_eq. rewrite Hi in IH.
        destruct (matches k); [by rewrite lookup_insert_eq | done].
      + rewrite lookup_insert_ne by done.
        destruct (matches i); [by rewrite lookup_insert_ne | done]. }
  rewrite Hfold. destruct (values !! k); simpl; [|done].
  by destruct (matches k).
Qed.

Lemma map_get_range_filter (m : option (gmap string value)) k :
  map_get (range_filter matches <$> m) k
  = (λ v, if matches k then filtered else v) <$> map_get m k.
Proof. destruct m as [g|]; simpl; [apply range_filter_lookup | done]. Qed.

End Redaction.

(** [filterByKey] with a supported key. *)
Lemma filterByKey_supported m key :
  supported key = true →
  ∃ m', filterByKey m key = Ok m' ∧
        ∀ k, map_get m' k = redacted [key] k (map_get m k).
Proof.
  destruct key as [s|re|typ]; [| |done]; intros _; eexists;
    (split; [reflexivity|]); intros k; rewrite map_get_range_filter;
    unfold redacted; simpl; by rewrite orb_false_r.
Qed.

Lemma redacted_cons key keys k entry :
  redacted keys k (redacted [key] k entry) = redacted (key :: keys) k entry.
Proof.
  unfold redacted. destruct entry as [v|]; simpl; [|done].
  rewrite orb_false_r.
  destruct (key_matches k key); simpl; [|done].
  by destruct (existsb (key_matches k) keys).
Qed.

Lemma NewBlacklistKeysFilter_supported keys : ∀ notice,
  forallb supported keys = true →
  ∃ notice',
    NewBlacklistKeysFilter keys notice = Ok notice' ∧
    Errors notice' = Errors notice ∧
    ∀ k,
      map_get (Context notice') k = redacted keys k (map_get (Context notice) k) ∧
      map_get (Env notice') k = redacted keys k (map_get (Env notice) k) ∧
      map_get (Session notice') k = redacted keys k (map_get (Session notice) k).
Proof.
  induction keys as [|key keys IH]; intros notice Hkeys.
  - exists notice. split_and!; [done..|]. intros k. unfold redacted. simpl.
    split_and!; by destruct (map_get _ k).
  - simpl in Hkeys. apply andb_true_iff in Hkeys as [Hkey Hkeys].
    destruct (filterByKey_supported (Env notice) key Hkey) as (env & He & Henv).
    destruct (filterByKey_supported (Context notice) key Hkey)
      as (ctx & Hc & Hctx).
    destruct (filterByKey_supported (Session notice) key Hkey)
      as (ses & Hs & Hses).
    destruct (IH (mkNotice (Errors notice) ctx env ses) Hkeys)
      as (notice' & Hrun & Herr & Hmaps).
    exists notice'. simpl. rewrite He, Hc, Hs. simpl.
    split_and!; [done..|]. intros k.
    destruct (Hmaps k) as (H1 & H2 & H3). simpl in H1, H2, H3.
    rewrite H1, H2, H3, Hctx, Henv, Hses, !redacted_cons. done.
Qed.

Lemma NewBlacklistKeysFilter_unsupported keys typ rest : ∀ notice,
  forallb supported keys = true →
  NewBlacklistKeysFilter (keys ++ KOther typ :: rest) notice
  = Panic ("unsupported blacklist key type: " +:+ typ).
Proof.
  induction keys as [|key keys IH]; intros notice Hkeys; [done|].
  simpl in Hkeys. apply andb_true_iff in Hkeys as [Hkey Hkeys].
  destruct (filterByKey_supported (Env notice) key Hkey) as (env & He & _).
  destruct (filterByKey_supported (Context notice) key Hkey) as (ctx & Hc & _).
  destruct (filterByKey_supported (Session notice) key Hkey) as (ses & Hs & _).
  simpl. rewrite He, Hc, Hs. simpl. by apply IH.
Qed.

(** C8: a blacklist filter whose keys are strings and regular expressions
    returns the notice with, in each of the context, environment and session
    mappings, the string made of an opening bracket, the word Filtered and a
    closing bracket at every key that some string key equals or some regular
    expression matches, and the value it had at every other key; no key is
    added or removed and the error records are kept. A filter that reaches a
    key of another type panics, with a message that names the type. *)
Theorem NewBlacklistKeysFilter_redacts keys notice :
  (forallb supported keys = true →
   ∃ notice',
     NewBlacklistKeysFilter keys notice = Ok notice' ∧
     Errors notice' = Errors notice ∧
     ∀ k,
       map_get (Context notice') k
         = (λ v, if existsb (key_matches k) keys
                 then VStr "[Filtered]" else v)
             <$> map_get (Context notice) k ∧
       map_get (Env notice') k
         = (λ v, if existsb (key_matches k) keys
                 then VStr "[Filtered]" else v)
             <$> map_get (Env notice) k ∧
       map_get (Session notice') k
         = (λ v, if existsb (key_matches k) keys
                 then VStr "[Filtered]" else v)
             <$> map_get (Session notice) k) ∧
  (∀ typ rest,
     forallb supported keys = true →
     NewBlacklistKeysFilter (keys ++ KOther typ :: rest) notice
     = Panic ("unsupported blacklist key type: " +:+ typ)) ∧
  (∀ s k, key_matches k (KString s) = bool_decide (k = s)) ∧
  (∀ re k, key_matches k (KRegexp re) = MatchString re k).
Proof.
  split_and!; [| |done..].
  - exact (NewBlacklistKeysFilter_supported keys notice).
  - intros typ rest Hkeys. by apply NewBlacklistKeysFilter_unsupported.
Qed.

Lemma NewBlacklistKeysFilter_redacts_witness :
  (∃ notice',
     NewBlacklistKeysFilter [KString "password"; KRegexp Sample.token_re]
       Sample.notice = Ok notice' ∧
     Errors notice' = [] ∧
     (map_get (Context notice') "password" = Some (VStr "[Filtered]") ∧
      map_get (Context notice') "other" = Some (VStr "y") ∧
      map_get (Context notice') "api_token" = Some (VStr "[Filtered]") ∧
      map_get (Context notice') "user" = None) ∧
     (map_get (Env notice') "password" = Some (VStr "[Filtered]") ∧
      map_get (Env notice') "other" = Some (VStr "y") ∧
      map_get (Env notice') "api_token" = Some (VStr "[Filtered]") ∧
      map_get (Env notice') "user" = None) ∧
     (map_get (Session notice') "password" = Some (VStr "[Filtered]") ∧
      map_get (Session notice') "other" = Some (VStr "y") ∧
      map_get (Session notice') "api_token" = Some (VStr "[Filtered]") ∧
      map_get (Session notice') "user" = None)) ∧
  NewBlacklistKeysFilter
    [KString "password"; KRegexp Sample.token_re; KOther "int";
     KString "other"] Sample.notice
  = Panic "unsupported blacklist key type: int".
Proof.
  destruct (NewBlacklistKeysFilter_redacts
              [KString "password"; KRegexp Sample.token_re] Sample.notice)
    as (Hredacts & Hpanics & _ & _).
  split; [|exact (Hpanics "int" [KString "other"] eq_refl)].
  destruct (Hredacts eq_refl) as (notice' & Hrun & Herr & Hmaps).
  exists notice'. split; [exact Hrun|]. split; [exact Herr|].
  destruct (Hmaps "password") as (Hc1 & He1 & Hs1).
  destruct (Hmaps "other") as (Hc2 & He2 & Hs2).
  destruct (Hmaps "api_token") as (Hc3 & He3 & Hs3).
  destruct (Hmaps "user") as (Hc4 & He4 & Hs4).
  rewrite Hc1, Hc2, Hc3, Hc4, He1, He2, He3, He4, Hs1, Hs2, Hs3, Hs4.
  repeat split; vm_compute; reflexivity.
Defined.

(** The two cases the specification lists: an exact key redacts its entry
    and keeps the other, and a pattern for the keys that end in [_token]
    redacts those and keeps the others. *)
Example filterByKey_password_and_token :
  (m ← filterByKey (Some Sample.secrets) (KString "password");
   Ok (map_get m "password", map_get m "other", map_get m "api_token"))
  = Ok (Some (VStr "[Filtered]"), Some (VStr "y"), Some (VStr "t")) ∧
  (m ← filterByKey (Some Sample.secrets) (KRegexp Sample.token_re);
   Ok (map_get m "password", map_get m "other", map_get m "api_token"))
  = Ok (Some (VStr "x"), Some (VStr "y"), Some (VStr "[Filtered]")) ∧
  filterByKey (Some Sample.secrets) (KOther "int")
  = Panic "unsupported blacklist key type: int".
Proof. split_and!; by vm_compute. Qed.

(** Assigning the same entry twice is assigning it once, also with another
    assignment in between. *)
Lemma map_assign_twice (g : gmap string value) k1 v1 k2 v2 :
  <[k2:=v2]> (<[k1:=v1]> (<[k2:=v2]> (<[k1:=v1]> g)))
  = <[k2:=v2]> (<[k1:=v1]> g).
Proof.
  apply map_eq. intros k. rewrite !lookup_insert.
  repeat case_decide; done.
Qed.

(** C9: applying the environment and revision filter to its own result
    gives that result again, for every notice and every options; this holds
    also when the filter panics on a notice whose context is the nil map. *)
Theorem newNotifierFilter_idempotent opt notice :
  (notice' ← newNotifierFilter opt notice; newNotifierFilter opt notice')
  = newNotifierFilter opt notice.
Proof.
  unfold newNotifierFilter.
  destruct notice as [errs [ctx|] env ses];
    do 2 (case_bool_decide; simpl; try done);
    unfold set_Context; simpl; do 2 f_equal;
    by rewrite ?insert_insert_eq, ?map_assign_twice.
Qed.

(** With an environment and a revision in the options, the filter writes
    both into the context. *)
Example newNotifierFilter_release :
  (n ← newNotifierFilter Sample.release_options Sample.notice;
   Ok (map_get (Context n) "environment", map_get (Context n) "revision",
       map_get (Context n) "other"))
  = Ok (Some (VStr "production"), Some (VStr "v1.2.3"), Some (VStr "y")).
Proof. by vm_compute. Qed.

(** * Further properties of the store *)

(** X1: a store fresh from [newRemoteConfig] answers from the static
    options alone: the interval is ten minutes, the route is built on the
    base URL of the options or on the default URL when they have none, both
    categories are enabled unless the options disable them, both hosts are
    those of the options, and no poller is installed. *)
Theorem newRemoteConfig_defaults o :
  Interval (newRemoteConfig o) = Ok (600 * Second) ∧
  ConfigRoute (newRemoteConfig o)
    = Ok ((if decide (NotifierOptions.RemoteConfigBaseURL o = "")
           then "https://v1-staging-notifier-configs.s3.amazonaws.com"
           else NotifierOptions.RemoteConfigBaseURL o)
          +:+ "/2020-06-18/config/"
          +:+ format_d (NotifierOptions.ProjectId o)
          +:+ "/config.json") ∧
  EnabledErrorNotifications (newRemoteConfig o)
    = Ok (negb (NotifierOptions.DisableErrorNotifications o)) ∧
  EnabledAPM (newRemoteConfig o) = Ok (negb (NotifierOptions.DisableAPM o)) ∧
  ErrorHost (newRemoteConfig o) = Ok (NotifierOptions.Host o) ∧
  APMHost (newRemoteConfig o) = Ok (NotifierOptions.APMHost o) ∧
  rc_poller (newRemoteConfig o) = None.
Proof.
  unfold newRemoteConfig, init. simpl.
  case_decide as Hbase; simpl; split_and!; done.
Qed.

Section Lookup.

Variable name : string.

Let other (s : RemoteSettings.t) : Prop := RemoteSettings.Name s ≠ name.

Lemma enabled_loop_found dflt pre s post :
  Forall other pre → RemoteSettings.Name s = name →
  enabled_loop name dflt ((Some <$> pre) ++ Some s :: post)
  = Ok (RemoteSettings.Enabled s).
Proof.
  intros Hpre Hs. induction Hpre as [|x pre Hx _ IH]; simpl.
  - by rewrite bool_decide_eq_true_2.
  - by rewrite bool_decide_eq_false_2.
Qed.

Lemma enabled_loop_absent dflt l :
  Forall other l → enabled_loop name dflt (Some <$> l) = Ok dflt.
Proof.
  intros Hl. induction Hl as [|x l Hx _ IH]; simpl; [done|].
  by rewrite bool_decide_eq_false_2.
Qed.

Lemma enabled_loop_nil_entry dflt pre post :
  Forall other pre →
  enabled_loop name dflt ((Some <$> pre) ++ None :: post) = Panic nilDeref.
Proof.
  intros Hpre. induction Hpre as [|x pre Hx _ IH]; simpl; [done|].
  by rewrite bool_decide_eq_false_2.
Qed.

End Lookup.

Section Settings.

Variable rc : remoteConfig.
Variable j : RemoteConfigJSON.t.
Hypothesis stored : JSON rc = Some j.

(** X2: the enablement lookups scan the whole list: the first entry that
    bears the category's name decides, wherever it stands, whatever comes
    after it. *)
Theorem Enabled_first_named_entry pre s post :
  RemoteConfigJSON.RemoteSettings j
    = ((Some <$> pre) ++ Some s :: post)%list →
  (Forall (λ x, RemoteSettings.Name x ≠ "errors") pre →
   RemoteSettings.Name s = "errors" →
   EnabledErrorNotifications rc = Ok (RemoteSettings.Enabled s)) ∧
  (Forall (λ x, RemoteSettings.Name x ≠ "apm") pre →
   RemoteSettings.Name s = "apm" →
   EnabledAPM rc = Ok (RemoteSettings.Enabled s)).
Proof.
  intros Hl. unfold EnabledErrorNotifications, EnabledAPM.
  rewrite stored. simpl. rewrite Hl.
  split; intros Hpre Hs; by apply enabled_loop_found.
Qed.

(** X3: when no entry bears the category's name, the enablement lookups
    answer from the options: enabled unless the options disable the
    category. *)
Theorem Enabled_absent_uses_options l :
  RemoteConfigJSON.RemoteSettings j = Some <$> l →
  (Forall (λ x, RemoteSettings.Name x ≠ "errors") l →
   EnabledErrorNotifications rc
   = Ok (negb (NotifierOptions.DisableErrorNotifications (opt rc)))) ∧
  (Forall (λ x, RemoteSettings.Name x ≠ "apm") l →
   EnabledAPM rc = Ok (negb (NotifierOptions.DisableAPM (opt rc)))).
Proof.
  intros Hl. unfold EnabledErrorNotifications, EnabledAPM.
  rewrite stored. simpl. rewrite Hl.
  split; intros Hall; by apply enabled_loop_absent.
Qed.

(** X4: a nil entry in the settings makes a lookup that reaches it panic:
    the enablement lookups when no entry before it bears the category's
    name, the host lookups when it is the first entry. *)
Theorem lookups_panic_on_nil_entry pre post :
  RemoteConfigJSON.RemoteSettings j
    = ((Some <$> pre) ++ None :: post)%list →
  (Forall (λ x, RemoteSettings.Name x ≠ "errors") pre →
   EnabledErrorNotifications rc = Panic nilDeref) ∧
  (Forall (λ x, RemoteSettings.Name x ≠ "apm") pre →
   EnabledAPM rc = Panic nilDeref) ∧
  (pre = [] → ErrorHost rc = Panic nilDeref ∧ APMHost rc = Panic nilDeref).
Proof.
  intros Hl.
  unfold EnabledErrorNotifications, EnabledAPM, ErrorHost, APMHost.
  rewrite stored. simpl. rewrite Hl. split_and!.
  - intros Hpre. by apply enabled_loop_nil_entry.
  - intros Hpre. by apply enabled_loop_nil_entry.
  - by intros ->.
Qed.

(** X5: the host lookups read the first entry only. When it bears the
    category's name and has an endpoint, that endpoint is the host; when it
    bears another name, the host is that of the options, also when an entry
    of the category with an endpoint follows. *)
Theorem Host_decided_by_first_entry s rest :
  RemoteConfigJSON.RemoteSettings j = Some s :: rest →
  (RemoteSettings.Name s = "errors" → RemoteSettings.Endpoint s ≠ "" →
   ErrorHost rc = Ok (RemoteSettings.Endpoint s)) ∧
  (RemoteSettings.Name s ≠ "errors" →
   ErrorHost rc = Ok (NotifierOptions.Host (opt rc))) ∧
  (RemoteSettings.Name s = "apm" → RemoteSettings.Endpoint s ≠ "" →
   APMHost rc = Ok (RemoteSettings.Endpoint s)) ∧
  (RemoteSettings.Name s ≠ "apm" →
   APMHost rc = Ok (NotifierOptions.APMHost (opt rc))).
Proof.
  intros Hl. unfold ErrorHost, APMHost. rewrite stored. simpl. rewrite Hl.
  simpl. unfold errorSetting, apmSetting. split_and!.
  - intros Hn He.
    by rewrite bool_decide_eq_true_2, bool_decide_eq_false_2.
  - intros Hn. by rewrite bool_decide_eq_false_2.
  - intros Hn He.
    by rewrite bool_decide_eq_true_2, bool_decide_eq_false_2.
  - intros Hn. by rewrite bool_decide_eq_false_2.
Qed.

End Settings.

Lemma Enabled_first_named_entry_witness :
  EnabledErrorNotifications
    (Sample.store_with
       (Sample.with_settings (Some <$> Sample.apm_then_errors_off)))
  = Ok false.
Proof.
  apply (proj1 (Enabled_first_named_entry
                  (Sample.store_with
                     (Sample.with_settings
                        (Some <$> Sample.apm_then_errors_off)))
                  (Sample.with_settings (Some <$> Sample.apm_then_errors_off))
                  eq_refl [RemoteSettings.mk "apm" true ""]
                  (RemoteSettings.mk "errors" false "") [] eq_refl));
    [|reflexivity].
  repeat constructor. discriminate.
Defined.

Lemma Enabled_absent_uses_options_witness :
  EnabledErrorNotifications
    (Sample.store_with
       (Sample.with_settings [Some (RemoteSettings.mk "apm" false "")]))
  = Ok true.
Proof.
  apply (proj1 (Enabled_absent_uses_options
                  (Sample.store_with
                     (Sample.with_settings
                        [Some (RemoteSettings.mk "apm" false "")]))
                  (Sample.with_settings
                     [Some (RemoteSettings.mk "apm" false "")])
                  eq_refl [RemoteSettings.mk "apm" false ""] eq_refl)).
  repeat constructor. discriminate.
Defined.

Lemma lookups_panic_on_nil_entry_witness :
  EnabledErrorNotifications
    (Sample.store_with
       (Sample.with_settings [Some (RemoteSettings.mk "apm" true ""); None]))
  = Panic nilDeref ∧
  ErrorHost (Sample.store_with (Sample.with_settings [None]))
  = Panic nilDeref.
Proof.
  split.
  - apply (proj1 (lookups_panic_on_nil_entry
                    (Sample.store_with
                       (Sample.with_settings
                          [Some (RemoteSettings.mk "apm" true ""); None]))
                    (Sample.with_settings
                       [Some (RemoteSettings.mk "apm" true ""); None])
                    eq_refl [RemoteSettings.mk "apm" true ""] [] eq_refl)).
    repeat constructor. discriminate.
  - apply (proj2 (proj2 (lookups_panic_on_nil_entry
                           (Sample.store_with (Sample.with_settings [None]))
                           (Sample.with_settings [None]) eq_refl [] []
                           eq_refl))).
    reflexivity.
Defined.

Lemma Host_decided_by_first_entry_witness :
  ErrorHost (Sample.store_with (Sample.with_settings Sample.apm_then_errors))
  = Ok "https://api.example.com" ∧
  ErrorHost
    (Sample.store_with
       (Sample.with_settings
          [Some (RemoteSettings.mk "errors" true "http://api.newexample.com")]))
  = Ok "http://api.newexample.com".
Proof.
  split.
  - apply (Host_decided_by_first_entry
             (Sample.store_with (Sample.with_settings Sample.apm_then_errors))
             (Sample.with_settings Sample.apm_then_errors) eq_refl
             (RemoteSettings.mk "apm" true "")
             [Some (RemoteSettings.mk "errors" true
                      "http://api.newexample.com")] eq_refl).
    discriminate.
  - apply (Host_decided_by_first_entry
             (Sample.store_with
                (Sample.with_settings
                   [Some (RemoteSettings.mk "errors" true
                            "http://api.newexample.com")]))
             (Sample.with_settings
                [Some (RemoteSettings.mk "errors" true
                         "http://api.newexample.com")]) eq_refl
             (RemoteSettings.mk "errors" true "http://api.newexample.com")
             [] eq_refl); [reflexivity | discriminate].
Defined.

(** * Further properties of the poller *)

Section Polling.

Variable json_Unmarshal : string → UnmarshalResult.

Local Abbreviation fetchConfig := (fetchConfig json_Unmarshal).
Local Abbreviation UpdateConfig := (UpdateConfig json_Unmarshal).
Local Abbreviation Poll := (Poll json_Unmarshal).
Local Abbreviation poll := (poll json_Unmarshal).
Local Abbreviation failing_fetch := (failing_fetch json_Unmarshal).
Local Abbreviation failing_schedule := (failing_schedule json_Unmarshal).
Local Abbreviation decoded := (decoded json_Unmarshal).

(** [UpdateConfig], path by path. *)
Lemma UpdateConfig_unfold cb http_Get w :
  UpdateConfig cb http_Get w =
  match fetchConfig http_Get w with
  | Panicked msg w' => Panicked msg w'
  | Ret (_, Some e) w' => Ret (Some e) w'
  | Ret (cfg, None) w' =>
      match rc_poller (rc w') with
      | None => Panicked nilDeref w'
      | Some p =>
          let halted :=
            mkWorld
              (mkRemoteConfig (opt (rc w')) (Some p) (baseURL (rc w')) cfg)
              (alter stop (ticker p) (tickers w')) (logged w') in
          match Interval (rc halted) with
          | Panic msg => Panicked msg halted
          | Ok d =>
              if d <=? 0
              then Panicked "non-positive interval for NewTicker" halted
              else
                (cb;; mret None)
                  (mkWorld
                     (mkRemoteConfig (opt (rc w'))
                        (Some (mkPoller (length (tickers w'))
                                 (closer_closed p)))
                        (baseURL (rc w')) cfg)
                     (alter stop (ticker p) (tickers w')
                        ++ [mkTicker d false])
                     (logged w'))
          end
      end
  end.
Proof.
  unfold RemoteConfig.UpdateConfig. unfold mbind at 1, M_bind.
  destruct (fetchConfig http_Get w) as [[cfg [e|]] w'|msg w']; [done| |done].
  destruct w' as [[o p b j] tk lg].
  unfold mbind, M_bind, get_rc, liftR, Ticker_Stop, set_JSON, set_poller.
  destruct p as [p|]; [|done]. cbn -[Interval].
  destruct (Interval _) as [d|msg]; [|done].
  unfold NewTicker. cbn. rewrite length_alter. by destruct (d <=? 0).
Qed.

(** X6: once the store holds the nil snapshot, every method that reads the
    snapshot panics: the derived values, the fetch (before any request is
    made and with nothing logged), [UpdateConfig] and [Poll] (before any
    ticker is armed and without running the callback). *)
Theorem nil_snapshot_panics cb http_Get w :
  JSON (rc w) = None →
  Interval (rc w) = Panic nilDeref ∧
  ConfigRoute (rc w) = Panic nilDeref ∧
  EnabledErrorNotifications (rc w) = Panic nilDeref ∧
  EnabledAPM (rc w) = Panic nilDeref ∧
  ErrorHost (rc w) = Panic nilDeref ∧
  APMHost (rc w) = Panic nilDeref ∧
  fetchConfig http_Get w = Panicked nilDeref w ∧
  UpdateConfig cb http_Get w = Panicked nilDeref w ∧
  Poll cb http_Get w = Panicked nilDeref w.
Proof.
  intros Hnil.
  assert (ConfigRoute (rc w) = Panic nilDeref) as Hroute
    by (unfold ConfigRoute; by rewrite Hnil).
  assert (Interval (rc w) = Panic nilDeref) as Hint
    by (unfold Interval; by rewrite Hnil).
  assert (fetchConfig http_Get w = Panicked nilDeref w) as Hfetch
    by (by rewrite fetchConfig_unfold, Hroute).
  unfold EnabledErrorNotifications, EnabledAPM, ErrorHost, APMHost.
  rewrite Hnil. split_and!; try done.
  - by rewrite UpdateConfig_unfold, Hfetch.
  - unfold RemoteConfig.Poll, mbind, M_bind, get_rc, liftR. by rewrite Hint.
Qed.

(** X7: an error of reading the body does not end the fetch: what fmt
    makes of the format made of the text fetchConfig failed, a colon, a
    blank and the error is logged (that text itself when the error holds no
    percent sign), and the bytes read so far are decoded like a whole body,
    so that the fetch succeeds when they decode. *)
Theorem fetchConfig_read_error_goes_on http_Get w url resp rerr j :
  ConfigRoute (rc w) = Ok url →
  http_Get url = GetOk resp →
  ReadErr resp = Some rerr →
  HasPrefix (Body resp) "<?xml " = false →
  json_Unmarshal (Body resp) = UnmarshalOk j →
  fetchConfig http_Get w
  = Ret (j, None) (log_line w (Sprintf0 ("fetchConfig failed: " +:+ rerr))) ∧
  (has_percent rerr = false →
   Sprintf0 ("fetchConfig failed: " +:+ rerr)
   = "fetchConfig failed: " +:+ rerr).
Proof.
  intros Hroute Hget Hread Hxml Hjson. split.
  - rewrite fetchConfig_unfold, Hroute, Hget.
    unfold RemoteConfig.decoded, after_read. by rewrite Hxml, Hjson, Hread.
  - apply Sprintf0_fetchConfig_failed.
Qed.

(** X8: when the fetch gives a snapshot whose poll_sec is at most
    9223372036 and a poller is installed, [UpdateConfig] stops the ticker
    of the poller, stores the snapshot, arms a new ticker, of poll_sec
    seconds when poll_sec is positive and of 600 seconds otherwise, leaves
    every other ticker and the closer as they were, and runs the callback
    on that state. *)
Theorem UpdateConfig_applies_snapshot cb http_Get w url resp j p :
  ConfigRoute (rc w) = Ok url →
  http_Get url = GetOk resp →
  HasPrefix (Body resp) "<?xml " = false →
  json_Unmarshal (Body resp) = UnmarshalOk (Some j) →
  rc_poller (rc w) = Some p →
  RemoteConfigJSON.PollSec j ≤ 9223372036 →
  UpdateConfig cb http_Get w
  = (cb;; mret None)
      (mkWorld
         (mkRemoteConfig (opt (rc w))
            (Some (mkPoller (length (tickers w)) (closer_closed p)))
            (baseURL (rc w)) (Some j))
         (alter stop (ticker p) (tickers w)
            ++ [mkTicker
                  (if 0 <? RemoteConfigJSON.PollSec j
                   then RemoteConfigJSON.PollSec j * Second
                   else 600 * Second) false])
         (logged (after_read (GetOk resp) w))).
Proof.
  intros Hroute Hget Hxml Hjson Hp Hsec.
  eapply UpdateConfig_success; eauto.
  - unfold RemoteConfig.decoded. by rewrite Hxml, Hjson.
  - unfold Interval. simpl.
    destruct (Z.ltb_spec 0 (RemoteConfigJSON.PollSec j)); [|done].
    f_equal. apply Duration_mul_Second. lia.
  - destruct (Z.ltb_spec 0 (RemoteConfigJSON.PollSec j));
      unfold Second; lia.
Qed.

(** [Poll], up to its call of [UpdateConfig]. *)
Lemma Poll_unfold cb http_Get w :
  Poll cb http_Get w =
  match Interval (rc w) with
  | Panic msg => Panicked msg w
  | Ok d =>
      if d <=? 0
      then Panicked "non-positive interval for NewTicker" w
      else
        (err ← UpdateConfig cb http_Get;
         match err with
         | Some e => Printf (fetchConfig_failed e)
         | None => mret tt
         end)
          (mkWorld
             (mkRemoteConfig (opt (rc w))
                (Some (mkPoller (length (tickers w)) false))
                (baseURL (rc w)) (JSON (rc w)))
             (tickers w ++ [mkTicker d false]) (logged w))
  end.
Proof.
  unfold RemoteConfig.Poll, newPoller, NewTicker.
  unfold mbind at 1 2 3 4 5, M_bind, get_rc, liftR, set_poller.
  destruct (Interval (rc w)) as [d|msg]; [|done].
  by destruct (d <=? 0).
Qed.

Lemma after_read_logged g w r t :
  after_read g (mkWorld r t (logged w))
  = mkWorld r t (logged (after_read g w)).
Proof. by destruct g as [[? ? []]|]. Qed.

Lemma Interval_in_range r j :
  JSON r = Some j →
  RemoteConfigJSON.PollSec j ≤ 9223372036 →
  Interval r
  = Ok (if 0 <? RemoteConfigJSON.PollSec j
        then RemoteConfigJSON.PollSec j * Second
        else 600 * Second) ∧
  0 < (if 0 <? RemoteConfigJSON.PollSec j
       then RemoteConfigJSON.PollSec j * Second
       else 600 * Second).
Proof.
  intros Hj Hsec. rewrite (Interval_stored r j Hj).
  destruct (Z.ltb_spec 0 (RemoteConfigJSON.PollSec j)).
  - rewrite Duration_mul_Second by lia. split; [done|]. unfold Second. lia.
  - split; [done|]. unfold Second. lia.
Qed.

Lemma alter_last {A} (f : A → A) (l : list A) x :
  alter f (length l) (l ++ [x])%list = (l ++ [f x])%list.
Proof.
  rewrite <- (Nat.add_0_r (length l)). by rewrite alter_app_r.
Qed.

(** The route does not depend on the poller. *)
Lemma ConfigRoute_poller o p p' b j :
  ConfigRoute (mkRemoteConfig o p b j) = ConfigRoute (mkRemoteConfig o p' b j).
Proof. reflexivity. Qed.


(** X10: on such a store, [Poll] with a first fetch that gives a snapshot
    of poll_sec at most 9223372036 arms two tickers: one of the interval
    of the old snapshot, stopped at once, and one of the interval of the
    new snapshot, which the poller holds; the new snapshot is stored, the
    tickers that existed are as they were, and the callback runs on that
    state. *)
Theorem Poll_applies_first_fetch cb http_Get w j url resp j' :
  JSON (rc w) = Some j →
  RemoteConfigJSON.PollSec j ≤ 9223372036 →
  ConfigRoute (rc w) = Ok url →
  http_Get url = GetOk resp →
  HasPrefix (Body resp) "<?xml " = false →
  json_Unmarshal (Body resp) = UnmarshalOk (Some j') →
  RemoteConfigJSON.PollSec j' ≤ 9223372036 →
  Poll cb http_Get w
  = (cb;; mret tt)
      (mkWorld
         (mkRemoteConfig (opt (rc w))
            (Some (mkPoller (S (length (tickers w))) false))
            (baseURL (rc w)) (Some j'))
         (tickers w
            ++ [mkTicker
                  (if 0 <? RemoteConfigJSON.PollSec j
                   then RemoteConfigJSON.PollSec j * Second
                   else 600 * Second) true;
                mkTicker
                  (if 0 <? RemoteConfigJSON.PollSec j'
                   then RemoteConfigJSON.PollSec j' * Second
                   else 600 * Second) false])
         (logged (after_read (GetOk resp) w))).
Proof.
  intros Hj Hsec Hroute Hget Hxml Hjson Hsec'.
  destruct (Interval_in_range _ _ Hj Hsec) as [Hint Hpos].
  rewrite Poll_unfold, Hint.
  match goal with |- context [?d <=? 0] => destruct (Z.leb_spec d 0) end;
    [lia|].
  unfold mbind at 1, M_bind.
  assert (decoded (Some j) (Body resp) = (Some j', None)) as Hdec
    by (unfold RemoteConfig.decoded; by rewrite Hxml, Hjson).
  rewrite <- Hj in Hdec.
  match goal with
  | |- context [RemoteConfig.UpdateConfig _ _ _ ?w1] =>
      destruct (Interval_in_range
                  (mkRemoteConfig (opt (rc w1))
                     (Some (mkPoller (length (tickers w)) false))
                     (baseURL (rc w1)) (Some j')) j' eq_refl Hsec')
        as [Hint' Hpos'];
      rewrite (UpdateConfig_success json_Unmarshal cb http_Get w1 url resp j'
                 (mkPoller (length (tickers w)) false) _ Hroute Hget Hdec
                 eq_refl Hint' Hpos')
  end.
  rewrite after_read_logged.
  cbn [RemoteConfig.rc RemoteConfig.tickers RemoteConfig.logged opt baseURL
       closer_closed ticker].
  rewrite length_app, Nat.add_1_r, alter_last, <- app_assoc.
  cbn [app stop period]. unfold mbind, M_bind. by destruct (cb _).
Qed.

Lemma poll_failing_tick cb http_Get rest w url e :
  is_Some (rc_poller (rc w)) →
  ConfigRoute (rc w) = Ok url →
  failing_fetch http_Get url e →
  poll cb (SelTick http_Get :: rest) w
  = poll cb rest
      (log_line (after_read (http_Get url) w)
         (Sprintf0 (fetchConfig_failed e))).
Proof.
  intros [p Hp] Hroute Hfail. simpl.
  unfold mbind at 1 2, M_bind, get_rc, liftR. rewrite Hp. simpl.
  unfold mbind at 1, M_bind.
  by rewrite (UpdateConfig_error _ cb _ _ _ _ _
                (fetchConfig_failing _ _ _ _ _ Hroute Hfail)).
Qed.

Lemma after_read_logged_prefix g w :
  logged w `prefix_of` logged (after_read g w).
Proof.
  destruct g as [[? ? [rerr|]]|]; simpl; try done. by apply prefix_app_r.
Qed.

(** X11: along any run of the polling loop in which every tick meets a
    failing fetch, the loop never panics and never runs the callback, the
    store and the tickers stay exactly as they were and the log only grows;
    the loop returns if and only if the closer is selected, and is left
    selecting otherwise. *)
Theorem poll_failing_run_keeps_store sched : ∀ w url,
  is_Some (rc_poller (rc w)) →
  ConfigRoute (rc w) = Ok url →
  failing_schedule url sched →
  ∃ w',
    (∀ cb, poll cb sched w
           = Ret (if closer_selected sched then Returned else Selecting) w') ∧
    rc w' = rc w ∧
    tickers w' = tickers w ∧
    logged w `prefix_of` logged w'.
Proof.
  induction sched as [|sel sched IH]; intros w url Hp Hroute Hsched.
  - exists w. by split_and!.
  - apply Forall_cons in Hsched as [Hsel Hsched].
    destruct sel as [|http_Get].
    + exists w. split_and!; try done. intros cb. simpl.
      destruct Hp as [p Hp].
      unfold mbind, M_bind, get_rc, liftR. by rewrite Hp.
    + destruct Hsel as [e Hfail].
      set (w1 := log_line (after_read (http_Get url) w)
                   (Sprintf0 (fetchConfig_failed e))).
      assert (rc w1 = rc w) as Hrc by apply after_read_rc.
      destruct (IH w1 url) as (w' & Hrun & Hrc' & Htk' & Hlog');
        [by rewrite Hrc..|done|].
      exists w'. split_and!.
      * intros cb. rewrite (poll_failing_tick cb _ _ _ url e); done.
      * congruence.
      * rewrite Htk'. apply after_read_tickers.
      * etrans; [apply (after_read_logged_prefix (http_Get url))|].
        etrans; [|exact Hlog']. by apply prefix_app_r.
Qed.

Lemma final_then {A B} (m : M A) (b : B) w :
  final ((m;; mret b) w) = final (m w).
Proof. unfold mbind, M_bind. by destruct (m w). Qed.

Lemma stop_keeps_periods tk i :
  Forall (λ t, 0 < period t) tk →
  Forall (λ t, 0 < period t) (alter stop i tk).
Proof. intros Htk. by apply Forall_alter. Qed.

(** X12: no ticker is ever armed with a period that is not positive: when
    every ticker of the state has a positive period and the callback keeps
    it so, this holds of the state [UpdateConfig], [Poll] and [StopPolling]
    end in, whether they return or panic. *)
Theorem periods_stay_positive cb http_Get w :
  periods_positive w →
  (∀ w0, periods_positive w0 → periods_positive (final (cb w0))) →
  periods_positive (final (UpdateConfig cb http_Get w)) ∧
  periods_positive (final (Poll cb http_Get w)) ∧
  periods_positive (final (StopPolling w)).
Proof.
  intros Hw Hcb.
  assert (∀ w0, periods_positive w0 →
                periods_positive (final (UpdateConfig cb http_Get w0)))
    as Hupdate.
  { clear w Hw. intros w Hw. rewrite UpdateConfig_unfold.
    pose proof (fetchConfig_reads_only json_Unmarshal http_Get w) as Hfetch.
    destruct (fetchConfig http_Get w) as [[cfg [e|]] w'|msg w'];
      destruct Hfetch as [_ Htk];
      assert (periods_positive w') as Hw'
        by (unfold periods_positive; by rewrite Htk); [done| |done].
    destruct (rc_poller (rc w')) as [p|]; [|done]. cbv zeta.
    destruct (Interval _) as [d|msg]; [|by apply stop_keeps_periods].
    destruct (Z.leb_spec d 0); [by apply stop_keeps_periods|].
    rewrite final_then. apply Hcb. unfold periods_positive. simpl.
    apply Forall_app. split; [by apply stop_keeps_periods|].
    by repeat constructor. }
  split_and!.
  - by apply Hupdate.
  - rewrite Poll_unfold. destruct (Interval (rc w)) as [d|msg]; [|done].
    destruct (Z.leb_spec d 0); [done|].
    unfold mbind, M_bind.
    match goal with
    | |- context [RemoteConfig.UpdateConfig _ _ _ ?w1] =>
        assert (periods_positive w1) as Hw1
          by (apply Forall_app; split; [done | by repeat constructor]);
        specialize (Hupdate w1 Hw1);
        destruct (UpdateConfig cb http_Get w1) as [[e|] w2|msg w2]
    end; done.
  - unfold StopPolling, poller_Stop, mbind, M_bind, get_rc, liftR.
    destruct (rc_poller (rc w)) as [p|]; [|done]. simpl.
    unfold close_closer. destruct (closer_closed p); simpl;
      by apply stop_keeps_periods.
Qed.

Lemma stop_leaves_no_stray o p b j tk lg :
  no_stray_ticker (mkWorld (mkRemoteConfig o (Some p) b j) tk lg) →
  ∀ i t, alter stop (ticker p) tk !! i = Some t → stopped t = true.
Proof.
  intros Hinv i t. rewrite list_lookup_alter. case_decide as Hi.
  - destruct (tk !! ticker p); intros; simplify_eq/=. done.
  - intros Ht. destruct (stopped t) eqn:Hrun; [done|].
    specialize (Hinv i t Ht Hrun). simpl in Hinv. congruence.
Qed.

(** X13: no ticker is left running behind: when no ticker runs but the one
    the poller holds and the callback keeps it so, this holds of the state
    [UpdateConfig] and [StopPolling] end in, whether they return or panic;
    and when [StopPolling] returns, no ticker runs at all. *)
Theorem no_ticker_left_running cb http_Get w :
  no_stray_ticker w →
  (∀ w0, no_stray_ticker w0 → no_stray_ticker (final (cb w0))) →
  no_stray_ticker (final (UpdateConfig cb http_Get w)) ∧
  no_stray_ticker (final (StopPolling w)) ∧
  (∀ w', StopPolling w = Ret tt w' →
         Forall (λ t, stopped t = true) (tickers w')).
Proof.
  intros Hw Hcb. split_and!.
  - rewrite UpdateConfig_unfold.
    pose proof (fetchConfig_reads_only json_Unmarshal http_Get w) as Hfetch.
    destruct (fetchConfig http_Get w) as [[cfg [e|]] w'|msg w'];
      destruct Hfetch as [Hrc Htk];
      assert (no_stray_ticker w') as Hw'
        by (unfold no_stray_ticker; by rewrite Hrc, Htk); [done| |done].
    destruct w' as [[o p b j] tk lg]. simpl.
    destruct p as [p|]; [|done].
    pose proof (stop_leaves_no_stray _ _ _ _ _ _ Hw') as Hstopped.
    assert (no_stray_ticker
              (mkWorld (mkRemoteConfig o (Some p) b cfg)
                 (alter stop (ticker p) tk) lg)) as Hhalted.
    { intros i t Ht Hrun. simpl in Ht. apply Hstopped in Ht. congruence. }
    destruct (Interval _) as [d|msg]; [|done].
    destruct (Z.leb_spec d 0); [done|].
    rewrite final_then. apply Hcb. intros i t Ht Hrun. simpl in *.
    apply lookup_snoc_Some in Ht as [[_ Ht]|[-> _]].
    + apply Hstopped in Ht. congruence.
    + by rewrite length_alter.
  - unfold StopPolling, poller_Stop, mbind, M_bind, get_rc, liftR.
    destruct w as [[o p b j] tk lg]. simpl. destruct p as [p|]; [|done].
    pose proof (stop_leaves_no_stray _ _ _ _ _ _ Hw) as Hstopped.
    simpl. unfold close_closer.
    destruct (closer_closed p); simpl; intros i t Ht Hrun; simpl in *;
      apply Hstopped in Ht; congruence.
  - intros w'.
    unfold StopPolling, poller_Stop, mbind, M_bind, get_rc, liftR.
    destruct w as [[o p b j] tk lg]. simpl. destruct p as [p|]; [|done].
    pose proof (stop_leaves_no_stray _ _ _ _ _ _ Hw) as Hstopped.
    simpl. unfold close_closer. destruct (closer_closed p); [done|].
    simpl. intros [= <-]. simpl. apply Forall_lookup. intros i t. apply Hstopped.
Qed.

End Polling.

(** ** Instances on the sample store *)

Lemma nil_snapshot_panics_witness :
  Interval (rc (Sample.halted None)) = Panic nilDeref ∧
  UpdateConfig Sample.json_Unmarshal (mret tt) (Sample.server 200 "{}")
    (Sample.halted None)
  = Panicked nilDeref (Sample.halted None).
Proof.
  pose proof (nil_snapshot_panics Sample.json_Unmarshal (mret tt)
                (Sample.server 200 "{}") (Sample.halted None) eq_refl)
    as (Hint & _ & _ & _ & _ & _ & _ & Hupdate & _).
  exact (conj Hint Hupdate).
Defined.

Lemma fetchConfig_read_error_goes_on_witness :
  fetchConfig Sample.json_Unmarshal
    (λ _, GetOk (mkResponse 200 "{}" (Some "unexpected EOF"))) Sample.polling
  = Ret (Some RemoteConfigJSON.zero, None)
      (log_line Sample.polling "fetchConfig failed: unexpected EOF").
Proof.
  destruct (fetchConfig_read_error_goes_on Sample.json_Unmarshal
              (λ _, GetOk (mkResponse 200 "{}" (Some "unexpected EOF")))
              Sample.polling
              "https://v1-staging-notifier-configs.s3.amazonaws.com/2020-06-18/config/1/config.json"
              (mkResponse 200 "{}" (Some "unexpected EOF")) "unexpected EOF"
              (Some RemoteConfigJSON.zero)
              eq_refl eq_refl eq_refl eq_refl eq_refl) as [Hfetch Hline].
  rewrite Hfetch, (Hline eq_refl). reflexivity.
Defined.

Lemma UpdateConfig_applies_snapshot_witness :
  UpdateConfig Sample.json_Unmarshal (mret tt)
    (Sample.server 200 (Sample.poll_sec_body "10")) Sample.polling
  = Ret None
      (mkWorld
         (mkRemoteConfig Sample.options (Some (mkPoller 1 false))
            defaultBaseURL (Some (Sample.with_PollSec 10)))
         [mkTicker defaultInterval true; mkTicker (10 * Second) false] []).
Proof.
  refine (UpdateConfig_applies_snapshot Sample.json_Unmarshal (mret tt)
            (Sample.server 200 (Sample.poll_sec_body "10")) Sample.polling
            "https://v1-staging-notifier-configs.s3.amazonaws.com/2020-06-18/config/1/config.json"
            (mkResponse 200 (Sample.poll_sec_body "10") None)
            (Sample.with_PollSec 10) (mkPoller 0 false)
            eq_refl eq_refl eq_refl eq_refl eq_refl _).
  simpl. lia.
Defined.


Lemma Poll_applies_first_fetch_witness :
  Poll Sample.json_Unmarshal (mret tt)
    (Sample.server 200 (Sample.poll_sec_body "10")) Sample.fresh
  = Ret tt
      (mkWorld
         (mkRemoteConfig Sample.options (Some (mkPoller 1 false))
            defaultBaseURL (Some (Sample.with_PollSec 10)))
         [mkTicker defaultInterval true; mkTicker (10 * Second) false] []).
Proof.
  refine (Poll_applies_first_fetch Sample.json_Unmarshal (mret tt)
            (Sample.server 200 (Sample.poll_sec_body "10")) Sample.fresh
            RemoteConfigJSON.zero
            "https://v1-staging-notifier-configs.s3.amazonaws.com/2020-06-18/config/1/config.json"
            (mkResponse 200 (Sample.poll_sec_body "10") None)
            (Sample.with_PollSec 10) eq_refl _ eq_refl eq_refl eq_refl
            eq_refl _); simpl; lia.
Defined.

Lemma poll_failing_run_keeps_store_witness :
  ∃ w',
    (∀ cb, poll Sample.json_Unmarshal cb
             [SelTick (Sample.server 200 "{"); SelTick Sample.unreachable;
              SelCloser] Sample.polling
           = Ret Returned w') ∧
    rc w' = rc Sample.polling ∧
    tickers w' = tickers Sample.polling ∧
    logged Sample.polling `prefix_of` logged w'.
Proof.
  refine (poll_failing_run_keeps_store Sample.json_Unmarshal
            [SelTick (Sample.server 200 "{"); SelTick Sample.unreachable;
             SelCloser] Sample.polling
            "https://v1-staging-notifier-configs.s3.amazonaws.com/2020-06-18/config/1/config.json"
            (mk_is_Some _ _ eq_refl) eq_refl _).
  repeat constructor.
  - exists "unexpected end of JSON input".
    by eapply (parse_error _ _ _ (mkResponse 200 "{" None)).
  - exists "dial tcp: connection refused". by apply transport_error.
Defined.

Lemma periods_stay_positive_witness :
  periods_positive
    (final (UpdateConfig Sample.json_Unmarshal (mret tt)
              (Sample.server 200 (Sample.poll_sec_body "9223372037"))
              Sample.polling)) ∧
  periods_positive
    (final (Poll Sample.json_Unmarshal (mret tt)
              (Sample.server 200 (Sample.poll_sec_body "9223372037"))
              Sample.polling)) ∧
  periods_positive (final (StopPolling Sample.polling)).
Proof.
  apply (periods_stay_positive Sample.json_Unmarshal (mret tt)
           (Sample.server 200 (Sample.poll_sec_body "9223372037"))
           Sample.polling).
  - repeat constructor.
  - intros w0 Hw0. exact Hw0.
Defined.

Lemma no_ticker_left_running_witness :
  no_stray_ticker
    (final (UpdateConfig Sample.json_Unmarshal (mret tt)
              (Sample.server 200 (Sample.poll_sec_body "10"))
              Sample.polling)) ∧
  no_stray_ticker (final (StopPolling Sample.polling)) ∧
  (∀ w', StopPolling Sample.polling = Ret tt w' →
         Forall (λ t, stopped t = true) (tickers w')).
Proof.
  apply (no_ticker_left_running Sample.json_Unmarshal (mret tt)
           (Sample.server 200 (Sample.poll_sec_body "10")) Sample.polling).
  - intros [|i] t Ht Hrun; [reflexivity | discriminate Ht].
  - intros w0 Hw0. exact Hw0.
Defined.

(** * Further properties of the filters *)

(** ** Redaction *)

Lemma range_filter_compose f g (m : gmap string value) :
  range_filter g (range_filter f m) = range_filter (λ k, f k || g k) m.
Proof.
  apply map_eq. intros k. rewrite !range_filter_lookup.
  destruct (m !! k); simpl; [|done]. by destruct (f k), (g k).
Qed.

Lemma range_filter_ext f g (m : gmap string value) :
  (∀ k, is_Some (m !! k) → f k = g k) →
  range_filter f m = range_filter g m.
Proof.
  intros Hfg. apply map_eq. intros k. rewrite !range_filter_lookup.
  destruct (m !! k) eqn:Hk; simpl; [|done]. by rewrite Hfg.
Qed.

Lemma range_filter_none (m : gmap string value) :
  range_filter (λ _, false) m = m.
Proof.
  apply map_eq. intros k. rewrite range_filter_lookup.
  by destruct (m !! k).
Qed.

Lemma range_filter_dom f (m : gmap string value) :
  dom (range_filter f m) = dom m.
Proof.
  apply set_eq. intros k.
  by rewrite !elem_of_dom, range_filter_lookup, fmap_is_Some.
Qed.

(** The notice a filter of supported keys returns, in one piece. *)
Lemma NewBlacklistKeysFilter_closed keys : ∀ notice,
  forallb supported keys = true →
  NewBlacklistKeysFilter keys notice
  = Ok (mkNotice (Errors notice)
          (range_filter (matches_any keys) <$> Context notice)
          (range_filter (matches_any keys) <$> Env notice)
          (range_filter (matches_any keys) <$> Session notice)).
Proof.
  induction keys as [|key keys IH]; intros [errs ctx env ses] Hkeys.
  - simpl. unfold matches_any. simpl.
    destruct ctx, env, ses; simpl; by rewrite ?range_filter_none.
  - simpl in Hkeys. apply andb_true_iff in Hkeys as [Hkey Hkeys].
    assert (∀ m, filterByKey m key
                 = Ok (range_filter (λ k, key_matches k key) <$> m)) as Hone
      by (intros m; by destruct key).
    simpl. rewrite !Hone. simpl. rewrite IH by done. simpl.
    destruct ctx, env, ses; simpl; by rewrite ?range_filter_compose.
Qed.

Lemma existsb_Permutation {A} (f : A → bool) l l' :
  l ≡ₚ l' → existsb f l = existsb f l'.
Proof.
  induction 1 as [|x l l' _ IH|x y l|l l' l'' _ IH1 _ IH2]; simpl.
  - done.
  - by rewrite IH.
  - by destruct (f x), (f y).
  - by rewrite IH1.
Qed.

Lemma forallb_Permutation {A} (f : A → bool) l l' :
  l ≡ₚ l' → forallb f l = forallb f l'.
Proof.
  induction 1 as [|x l l' _ IH|x y l|l l' l'' _ IH1 _ IH2]; simpl.
  - done.
  - by rewrite IH.
  - by destruct (f x), (f y).
  - by rewrite IH1.
Qed.

(** X14: a blacklist filter of string and regular-expression keys is
    idempotent: run on its own result, it returns that result. *)
Theorem NewBlacklistKeysFilter_idempotent keys notice :
  forallb supported keys = true →
  (notice' ← NewBlacklistKeysFilter keys notice;
   NewBlacklistKeysFilter keys notice')
  = NewBlacklistKeysFilter keys notice.
Proof.
  intros Hkeys. rewrite !NewBlacklistKeysFilter_closed by done. simpl.
  rewrite NewBlacklistKeysFilter_closed by done. simpl.
  destruct notice as [errs [ctx|] [env|] [ses|]]; simpl;
    rewrite ?range_filter_compose; do 2 f_equal; f_equal;
    apply range_filter_ext; intros k _; by destruct (matches_any keys k).
Qed.

(** X15: the order of the keys of a blacklist filter and their repetition
    do not matter: two lists of string and regular-expression keys that are
    the same up to order give the same notice, and so does a list given
    twice over. *)
Theorem NewBlacklistKeysFilter_order_irrelevant keys keys' notice :
  forallb supported keys = true →
  keys ≡ₚ keys' →
  NewBlacklistKeysFilter keys' notice = NewBlacklistKeysFilter keys notice ∧
  NewBlacklistKeysFilter (keys ++ keys') notice
  = NewBlacklistKeysFilter keys notice.
Proof.
  intros Hkeys Hperm.
  assert (forallb supported keys' = true) as Hkeys'
    by (by rewrite <- (forallb_Permutation _ _ _ Hperm)).
  assert (forallb supported (keys ++ keys') = true) as Happ
    by (rewrite forallb_app; by rewrite Hkeys, Hkeys').
  rewrite !NewBlacklistKeysFilter_closed by done.
  assert (∀ k, matches_any keys' k = matches_any keys k) as Hsame
    by (intros k; unfold matches_any; by rewrite (existsb_Permutation _ _ _ Hperm)).
  assert (∀ k, matches_any (keys ++ keys') k = matches_any keys k) as Htwice.
  { intros k. unfold matches_any. rewrite existsb_app.
    fold (matches_any keys k) (matches_any keys' k). rewrite Hsame.
    by destruct (matches_any keys k). }
  split; do 2 f_equal;
    destruct notice as [errs [ctx|] [env|] [ses|]]; simpl; try done;
    f_equal; apply range_filter_ext; intros k _; done.
Qed.

(** X16: a blacklist filter of string and regular-expression keys adds no
    key to a mapping and removes none: each of the three mappings of the
    notice it returns has the keys it had, a nil mapping stays nil, and the
    error records are those of the notice. *)
Theorem NewBlacklistKeysFilter_keeps_keys keys notice notice' :
  forallb supported keys = true →
  NewBlacklistKeysFilter keys notice = Ok notice' →
  dom <$> Context notice' = dom <$> Context notice ∧
  dom <$> Env notice' = dom <$> Env notice ∧
  dom <$> Session notice' = dom <$> Session notice ∧
  Errors notice' = Errors notice.
Proof.
  intros Hkeys. rewrite NewBlacklistKeysFilter_closed by done.
  intros [= <-]. simpl.
  destruct notice as [errs [ctx|] [env|] [ses|]]; simpl;
    by rewrite ?range_filter_dom.
Qed.

(** X17: a notice none of whose keys is matched by a key of the filter
    passes a blacklist filter of string and regular-expression keys
    unchanged. *)
Theorem NewBlacklistKeysFilter_no_match keys notice :
  forallb supported keys = true →
  (∀ k, is_Some (map_get (Context notice) k) ∨
        is_Some (map_get (Env notice) k) ∨
        is_Some (map_get (Session notice) k) →
        matches_any keys k = false) →
  NewBlacklistKeysFilter keys notice = Ok notice.
Proof.
  intros Hkeys Hnone. rewrite NewBlacklistKeysFilter_closed by done.
  destruct notice as [errs ctx env ses]. simpl in *. do 2 f_equal.
  - destruct ctx as [g|]; simpl; [|done]. f_equal.
    rewrite <- (range_filter_none g) at 2. apply range_filter_ext.
    intros k Hk. apply Hnone. by left.
  - destruct env as [g|]; simpl; [|done]. f_equal.
    rewrite <- (range_filter_none g) at 2. apply range_filter_ext.
    intros k Hk. apply Hnone. right. by left.
  - destruct ses as [g|]; simpl; [|done]. f_equal.
    rewrite <- (range_filter_none g) at 2. apply range_filter_ext.
    intros k Hk. apply Hnone. right. by right.
Qed.

(** ** Environment and revision *)

(** The filter on a context that is not the nil map, in one piece. *)
Lemma newNotifierFilter_writes_two_keys_aux opt g errs env ses :
  newNotifierFilter opt (mkNotice errs (Some g) env ses)
  = Ok (mkNotice errs
          (Some ((if decide (NotifierOptions.Revision opt = "")
                  then id
                  else <["revision" := VStr (NotifierOptions.Revision opt)]>)
                   ((if decide (NotifierOptions.Environment opt = "")
                     then id
                     else <["environment" :=
                              VStr (NotifierOptions.Environment opt)]>) g)))
          env ses).
Proof.
  unfold newNotifierFilter. simpl.
  do 2 (case_bool_decide; case_decide; try done; simpl).
Qed.

(** X18: on a notice whose context is not the nil map, the environment and
    revision filter never panics; it writes the environment of the options
    under the key environment and their revision under the key revision,
    each only when it is not empty, and leaves every other entry of the
    context, the other two mappings and the error records as they were. *)
Theorem newNotifierFilter_writes_two_keys opt notice g :
  Context notice = Some g →
  ∃ notice',
    newNotifierFilter opt notice = Ok notice' ∧
    map_get (Context notice') "environment"
      = (if decide (NotifierOptions.Environment opt = "")
         then g !! "environment"
         else Some (VStr (NotifierOptions.Environment opt))) ∧
    map_get (Context notice') "revision"
      = (if decide (NotifierOptions.Revision opt = "")
         then g !! "revision"
         else Some (VStr (NotifierOptions.Revision opt))) ∧
    (∀ k, k ≠ "environment" → k ≠ "revision" →
          map_get (Context notice') k = g !! k) ∧
    Env notice' = Env notice ∧
    Session notice' = Session notice ∧
    Errors notice' = Errors notice.
Proof.
  intros Hctx. destruct notice as [errs ctx env ses]. simpl in Hctx.
  subst ctx. eexists. split; [apply newNotifierFilter_writes_two_keys_aux|].
  simpl. split_and!; try done.
  - do 2 case_decide; simpl;
      by rewrite ?lookup_insert_ne, ?lookup_insert_eq by done.
  - do 2 case_decide; simpl;
      by rewrite ?lookup_insert_eq, ?lookup_insert_ne by done.
  - intros k Hk1 Hk2. do 2 case_decide; simpl;
      by rewrite ?lookup_insert_ne by done.
Qed.

(** X19: on a notice whose context is the nil map, the environment and
    revision filter returns the notice as it is when the options have
    neither environment nor revision, and panics on the assignment to the
    nil map when they have either. *)
Theorem newNotifierFilter_nil_context opt notice :
  Context notice = None →
  (NotifierOptions.Environment opt = "" → NotifierOptions.Revision opt = "" →
   newNotifierFilter opt notice = Ok notice) ∧
  (NotifierOptions.Environment opt ≠ "" ∨ NotifierOptions.Revision opt ≠ "" →
   newNotifierFilter opt notice = Panic "assignment to entry in nil map").
Proof.
  intros Hctx. unfold newNotifierFilter. rewrite Hctx. split.
  - intros -> ->. simpl. done.
  - intros [Henv|Hrev].
    + rewrite (bool_decide_eq_false_2 _ Henv). simpl. done.
    + rewrite (bool_decide_eq_false_2 _ Hrev).
      destruct (decide (NotifierOptions.Environment opt = "")) as [He|He].
      * rewrite (bool_decide_eq_true_2 _ He). simpl. by rewrite Hctx.
      * rewrite (bool_decide_eq_false_2 _ He). simpl. done.
Qed.

(** ** Version control *)

Section GitFacts.

Variable gitLastCheckout : string → value * option error.
Variable gitRevision : string → string * option error.

Local Abbreviation gitRevisionFilter :=
  (gitRevisionFilter gitLastCheckout gitRevision).

Lemma string_or_empty_nonempty (x : option value) :
  string_or_empty x ≠ "" → ∃ s, x = Some (VStr s) ∧ s ≠ "".
Proof.
  destruct x as [[| | |s]|]; simpl; try done. intros Hs. by exists s.
Qed.

(** X20: the version-control filter never panics, whatever the notice and
    whatever the metadata reader returns; it leaves the error records, the
    environment and session mappings and every entry of the context other
    than lastCheckout and revision as they were. *)
Theorem gitRevisionFilter_total notice :
  ∃ notice',
    gitRevisionFilter notice = Ok notice' ∧
    Errors notice' = Errors notice ∧
    Env notice' = Env notice ∧
    Session notice' = Session notice ∧
    ∀ k, k ≠ "lastCheckout" → k ≠ "revision" →
         map_get (Context notice') k = map_get (Context notice) k.
Proof.
  unfold Filter.gitRevisionFilter. cbv zeta.
  set (rootDir := string_or_empty (map_get (Context notice) "rootDirectory")).
  destruct (bool_decide (rootDir = "") || _) eqn:Hskip; [by exists notice|].
  apply orb_false_iff in Hskip as [Hroot _].
  apply bool_decide_eq_false in Hroot.
  destruct notice as [errs [g|] env ses]; simpl in *; [|done].
  clearbody rootDir.
  destruct (gitLastCheckout rootDir) as [checkout [e1|]];
    destruct (gitRevision rootDir) as [rev [e2|]]; simpl;
    eexists; (split; [reflexivity|]); simpl; split_and!; try done;
    intros k Hk1 Hk2; by rewrite ?lookup_insert_ne.
Qed.

(** X21: the version-control filter returns the notice unchanged, and
    without consulting the metadata, when the context has no root
    directory (none, an empty one, or one that is no string) and when it
    already holds a revision that is a non-empty string: a revision that
    is there is never overwritten. *)
Theorem gitRevisionFilter_skips notice :
  string_or_empty (map_get (Context notice) "rootDirectory") = "" ∨
  string_or_empty (map_get (Context notice) "revision") ≠ "" →
  gitRevisionFilter notice = Ok notice.
Proof.
  intros [Hroot|Hrev]; unfold Filter.gitRevisionFilter.
  - by rewrite Hroot.
  - rewrite (bool_decide_eq_false_2 _ Hrev). simpl. by rewrite orb_true_r.
Qed.

(** X22: on a notice whose context holds a root directory and no
    revision, the version-control filter writes what the metadata reader
    gives: the last checkout when reading it succeeds, the revision when
    reading it succeeds, each without regard to the other; an entry whose
    reading fails stays as it was, and when both fail the notice is
    unchanged. *)
Theorem gitRevisionFilter_backfills notice g root :
  Context notice = Some g →
  g !! "rootDirectory" = Some (VStr root) → root ≠ "" →
  string_or_empty (g !! "revision") = "" →
  ∃ notice',
    gitRevisionFilter notice = Ok notice' ∧
    map_get (Context notice') "lastCheckout"
      = (match gitLastCheckout root with
         | (checkout, None) => Some checkout
         | (_, Some _) => g !! "lastCheckout"
         end) ∧
    map_get (Context notice') "revision"
      = (match gitRevision root with
         | (rev, None) => Some (VStr rev)
         | (_, Some _) => g !! "revision"
         end) ∧
    (is_Some (gitLastCheckout root).2 → is_Some (gitRevision root).2 →
     notice' = notice).
Proof.
  intros Hctx Hroot Hne Hrev. destruct notice as [errs ctx env ses].
  simpl in Hctx. subst ctx. unfold Filter.gitRevisionFilter. simpl.
  rewrite Hroot, Hrev.
  change (string_or_empty (Some (VStr root))) with root.
  rewrite (bool_decide_eq_false_2 _ Hne). simpl.
  destruct (gitLastCheckout root) as [checkout [e1|]];
    destruct (gitRevision root) as [rev [e2|]]; simpl;
    eexists; (split; [reflexivity|]); simpl; split_and!;
    repeat (rewrite lookup_insert_eq || rewrite lookup_insert_ne by done);
    try done; intros [? ?] [? ?]; by simplify_eq/=.
Qed.

(** X23: after the environment and revision filter has run with options
    that name a revision, the version-control filter changes nothing: the
    revision of the options stands, and the metadata is not consulted. *)
Theorem gitRevisionFilter_after_newNotifierFilter opt notice notice' :
  NotifierOptions.Revision opt ≠ "" →
  newNotifierFilter opt notice = Ok notice' →
  gitRevisionFilter notice' = Ok notice' ∧
  map_get (Context notice') "revision"
  = Some (VStr (NotifierOptions.Revision opt)).
Proof.
  intros Hrev Hrun.
  assert (map_get (Context notice') "revision"
          = Some (VStr (NotifierOptions.Revision opt))) as Hset.
  { destruct notice as [errs [g|] env ses].
    - rewrite newNotifierFilter_writes_two_keys_aux in Hrun.
      injection Hrun as <-. simpl.
      rewrite decide_False by done. apply lookup_insert_eq.
    - unfold newNotifierFilter in Hrun. simpl in Hrun.
      rewrite (bool_decide_eq_false_2 _ Hrev) in Hrun.
      by case_bool_decide. }
  split; [|done]. unfold Filter.gitRevisionFilter. rewrite Hset. simpl.
  rewrite (bool_decide_eq_false_2 _ Hrev). simpl. by rewrite orb_true_r.
Qed.

End GitFacts.

(** ** Search-path roots *)




Section GopathFacts.

Variable SplitList : string → list string.
Variable Join : string → string → string.

Local Abbreviation gopath_file := (gopath_file Join).
Local Abbreviation gopath_frame := (gopath_frame Join).
Local Abbreviation gopathFilter := (gopathFilter SplitList Join).

Lemma gopath_file_no_root dirs file :
  Forall (λ d, Go.HasPrefix file (Join d "src") = false) dirs →
  gopath_file dirs file = file.
Proof.
  induction 1 as [|d dirs Hd _ IH]; simpl; [done|]. by rewrite Hd.
Qed.


(** X25: the path filter touches nothing but the paths of the frames: the
    three mappings of the notice, the number of error records, the number
    of frames of each and the line and function of every frame are as they
    were. *)
Theorem gopathFilter_keeps_shape notice :
  Context (gopathFilter notice) = Context notice ∧
  Env (gopathFilter notice) = Env notice ∧
  Session (gopathFilter notice) = Session notice ∧
  map (map (λ fr, (Line fr, Func fr))) (Errors (gopathFilter notice))
  = map (map (λ fr, (Line fr, Func fr))) (Errors notice).
Proof.
  unfold Filter.gopathFilter.
  destruct (assert_string _) as [s|]; [|done]. simpl. split_and!; try done.
  rewrite map_map. apply map_ext. intros b. rewrite map_map.
  by apply map_ext.
Qed.

(** X26: the path filter returns the notice unchanged when the context
    holds no string under the key gopath, and when no frame's path lies
    under the [src] directory of a root. *)
Theorem gopathFilter_unchanged notice :
  (assert_string (map_get (Context notice) "gopath") = None →
   gopathFilter notice = notice) ∧
  (∀ s,
     assert_string (map_get (Context notice) "gopath") = Some s →
     Forall (Forall (λ fr,
                Forall (λ d, Go.HasPrefix (File fr) (Join d "src") = false)
                  (SplitList s))) (Errors notice) →
     gopathFilter notice = notice).
Proof.
  unfold Filter.gopathFilter. split.
  - by intros ->.
  - intros s -> Hnone. destruct notice as [errs ctx env ses].
    unfold set_Errors. simpl in *. f_equal.
    induction Hnone as [|b errs Hb _ IH]; simpl; [done|]. f_equal; [|done].
    clear IH. induction Hb as [|fr b Hfr _ IH]; simpl; [done|].
    f_equal; [|done]. unfold Filter.gopath_frame.
    rewrite gopath_file_no_root by done. by destruct fr.
Qed.

(** X27: the path filter and a blacklist filter of string and
    regular-expression keys can run in either order, with the same
    notice in the end, as long as no key of the blacklist matches the key
    gopath. *)
Theorem gopathFilter_commutes_with_blacklist keys notice :
  forallb supported keys = true →
  matches_any keys "gopath" = false →
  NewBlacklistKeysFilter keys (gopathFilter notice)
  = (notice' ← NewBlacklistKeysFilter keys notice; Ok (gopathFilter notice')).
Proof.
  intros Hkeys Hgopath. rewrite !NewBlacklistKeysFilter_closed by done.
  simpl. f_equal. unfold Filter.gopathFilter. simpl.
  rewrite map_get_range_filter, Hgopath.
  destruct notice as [errs ctx env ses]. simpl.
  destruct (map_get ctx "gopath") as [[| | |s]|]; done.
Qed.

End GopathFacts.

(** ** Instances on the sample notices *)

Lemma NewBlacklistKeysFilter_idempotent_witness :
  (notice' ← NewBlacklistKeysFilter
               [KString "password"; KRegexp Sample.token_re] Sample.notice;
   NewBlacklistKeysFilter [KString "password"; KRegexp Sample.token_re]
     notice')
  = NewBlacklistKeysFilter [KString "password"; KRegexp Sample.token_re]
      Sample.notice.
Proof.
  exact (NewBlacklistKeysFilter_idempotent
           [KString "password"; KRegexp Sample.token_re] Sample.notice
           eq_refl).
Defined.

Lemma NewBlacklistKeysFilter_order_irrelevant_witness :
  NewBlacklistKeysFilter [KRegexp Sample.token_re; KString "password"]
    Sample.notice
  = NewBlacklistKeysFilter [KString "password"; KRegexp Sample.token_re]
      Sample.notice.
Proof.
  exact (proj1 (NewBlacklistKeysFilter_order_irrelevant
                  [KString "password"; KRegexp Sample.token_re]
                  [KRegexp Sample.token_re; KString "password"]
                  Sample.notice eq_refl (perm_swap _ _ []))).
Defined.

Lemma NewBlacklistKeysFilter_keeps_keys_witness :
  ∃ notice',
    NewBlacklistKeysFilter [KString "password"; KRegexp Sample.token_re]
      Sample.notice = Ok notice' ∧
    dom <$> Context notice' = Some (dom Sample.secrets).
Proof.
  eexists. split.
  - by apply NewBlacklistKeysFilter_closed.
  - exact (proj1 (NewBlacklistKeysFilter_keeps_keys
                    [KString "password"; KRegexp Sample.token_re]
                    Sample.notice _ eq_refl
                    (NewBlacklistKeysFilter_closed
                       [KString "password"; KRegexp Sample.token_re]
                       Sample.notice eq_refl))).
Defined.

Lemma NewBlacklistKeysFilter_no_match_witness :
  NewBlacklistKeysFilter [KString "secret"] Sample.notice = Ok Sample.notice.
Proof.
  apply NewBlacklistKeysFilter_no_match; [reflexivity|].
  intros k Hk. unfold matches_any. simpl. rewrite orb_false_r.
  apply bool_decide_eq_false. intros ->.
  destruct Hk as [[x Hx]|[[x Hx]|[x Hx]]]; vm_compute in Hx; discriminate Hx.
Defined.

Lemma newNotifierFilter_writes_two_keys_witness :
  ∃ notice',
    newNotifierFilter Sample.release_options Sample.notice = Ok notice' ∧
    map_get (Context notice') "environment" = Some (VStr "production") ∧
    map_get (Context notice') "revision" = Some (VStr "v1.2.3") ∧
    (∀ k, k ≠ "environment" → k ≠ "revision" →
          map_get (Context notice') k = Sample.secrets !! k) ∧
    Env notice' = Env Sample.notice ∧
    Session notice' = Session Sample.notice ∧
    Errors notice' = Errors Sample.notice.
Proof.
  exact (newNotifierFilter_writes_two_keys Sample.release_options
           Sample.notice Sample.secrets eq_refl).
Defined.

Lemma newNotifierFilter_nil_context_witness :
  newNotifierFilter Sample.options (mkNotice [] None None None)
    = Ok (mkNotice [] None None None) ∧
  newNotifierFilter Sample.release_options (mkNotice [] None None None)
    = Panic "assignment to entry in nil map".
Proof.
  split.
  - exact (proj1 (newNotifierFilter_nil_context Sample.options
                    (mkNotice [] None None None) eq_refl) eq_refl eq_refl).
  - apply (proj2 (newNotifierFilter_nil_context Sample.release_options
                    (mkNotice [] None None None) eq_refl)).
    left. discriminate.
Defined.

Lemma gitRevisionFilter_skips_witness :
  gitRevisionFilter Sample.gitLastCheckout Sample.gitRevision Sample.notice
  = Ok Sample.notice.
Proof.
  apply gitRevisionFilter_skips. left. reflexivity.
Defined.

Lemma gitRevisionFilter_backfills_witness :
  ∃ notice',
    gitRevisionFilter Sample.gitLastCheckout Sample.gitRevision Sample.rooted
      = Ok notice' ∧
    map_get (Context notice') "lastCheckout"
      = Some (VStr "2020-06-18T10:00:00Z") ∧
    map_get (Context notice') "revision" = Some (VStr "6c3d3f0").
Proof.
  destruct (gitRevisionFilter_backfills Sample.gitLastCheckout
              Sample.gitRevision Sample.rooted
              (<["rootDirectory" := VStr "/srv/app"]> ∅) "/srv/app"
              eq_refl eq_refl ltac:(discriminate) eq_refl)
    as (notice' & Hrun & Hcheckout & Hrev & _).
  exists notice'. split_and!; [exact Hrun | exact Hcheckout | exact Hrev].
Defined.

Lemma gitRevisionFilter_after_newNotifierFilter_witness :
  ∃ notice',
    newNotifierFilter Sample.release_options Sample.rooted = Ok notice' ∧
    gitRevisionFilter Sample.gitLastCheckout Sample.gitRevision notice'
      = Ok notice' ∧
    map_get (Context notice') "revision" = Some (VStr "v1.2.3").
Proof.
  eexists. split; [apply newNotifierFilter_writes_two_keys_aux|].
  apply (gitRevisionFilter_after_newNotifierFilter Sample.gitLastCheckout
           Sample.gitRevision Sample.release_options Sample.rooted).
  - discriminate.
  - apply newNotifierFilter_writes_two_keys_aux.
Defined.


Lemma gopathFilter_unchanged_witness :
  gopathFilter Sample.SplitList Sample.Join Sample.notice = Sample.notice.
Proof.
  apply (proj1 (gopathFilter_unchanged Sample.SplitList Sample.Join
                  Sample.notice)).
  reflexivity.
Defined.

Lemma gopathFilter_commutes_with_blacklist_witness :
  NewBlacklistKeysFilter [KString "password"]
    (gopathFilter Sample.SplitList Sample.Join Sample.traced)
  = (notice' ← NewBlacklistKeysFilter [KString "password"] Sample.traced;
     Ok (gopathFilter Sample.SplitList Sample.Join notice')).
Proof.
  exact (gopathFilter_commutes_with_blacklist Sample.SplitList Sample.Join
           [KString "password"] Sample.traced eq_refl eq_refl).
Defined.

(** The path filter on a notice built under the second of two roots: the
    frame under that root is rewritten, the frame of the runtime is not. *)
Example gopathFilter_traced :
  map (map File)
    (Errors (gopathFilter Sample.SplitList Sample.Join Sample.traced))
  = [["/GOPATH/app/main.go"; "/usr/lib/go/src/runtime/proc.go"]].
Proof. by vm_compute. Qed.
